(** * inspectrum: the plot view (src/plotview.cpp)

    A shallow embedding of [PlotView]: the coordinate arithmetic that relates
    scroll position, samples per column and absolute sample offsets, the
    selection conversions, and the routing of pointer events.

    Conventions.
    - A C++ [int] is a [Z] kept in the 32-bit signed range, an [off_t] a [Z]
      kept in the 64-bit signed range; every arithmetic result and every
      narrowing conversion goes through [wrap32] / [wrap64].
    - An integer division whose divisor is zero (or [MIN / -1]) is undefined
      behaviour in C++ and traps on the usual hardware; operations that may
      reach one return [option], [None] standing for that failure.
    - Qt objects the view talks to ([QScrollBar], [QRect]) are modelled by
      their documented behaviour, in [Module Qt].
    - Emitted signals are appended to a log. One signal is delivered back
      into the view: the scroll bars' [valueChanged], which the scroll area
      answers by calling [scrollContentsBy], that is [updateView(false)],
      before the call that moved the scroll position returns.
      [updateView] below is the body of the member function run once, which
      is all that happens while no scroll position moves;
      [Reentrant.updateView] adds the delivery. The two differ in the view
      range and in the number of repaints only, and agree on the scroll
      bars, the cursors and the selection ([updateView_once],
      [updateView_settles]). The geometry of the widget and of its viewport
      is a given of the state, and what the hooks of the overlay and of the
      plots do besides answering is not modelled. *)

From Stdlib Require Import ZArith List Bool Lia QArith SpecFloat.
Import ListNotations.
Open Scope Z_scope.

(** ** Machine integers *)

Module Int.

Definition wrap (bits : Z) (z : Z) : Z :=
  (z + 2 ^ (bits - 1)) mod 2 ^ bits - 2 ^ (bits - 1).

Definition wrap32 : Z -> Z := wrap 32.
Definition wrap64 : Z -> Z := wrap 64.

Definition INT_MIN : Z := - 2 ^ 31.
Definition INT_MAX : Z := 2 ^ 31 - 1.
Definition OFF_MIN : Z := - 2 ^ 63.
Definition OFF_MAX : Z := 2 ^ 63 - 1.

Definition is_int (z : Z) : Prop := INT_MIN <= z <= INT_MAX.
Definition is_off (z : Z) : Prop := OFF_MIN <= z <= OFF_MAX.

(** C++ [a / b] on a signed type whose least value is [lo]: truncation
    toward zero, undefined for [b = 0] and for [lo / -1]. *)
Definition cdiv (lo a b : Z) : option Z :=
  if b =? 0 then None
  else if (a =? lo) && (b =? -1) then None
  else Some (a ÷ b).

Definition int_div : Z -> Z -> option Z := cdiv INT_MIN.
Definition off_div : Z -> Z -> option Z := cdiv OFF_MIN.

End Int.
Import Int.

(** ** Single-precision floats

    A C++ [float] is an IEEE 754 binary32 number, here a [spec_float] with
    24 bits of precision; conversions and the division round to nearest,
    ties to even. *)

Module Float32.

Definition prec : Z := 24.
Definition emax : Z := 128.

(** The conversion of an integer to [float]. *)
Definition of_Z (z : Z) : spec_float := binary_normalize prec emax z 0 false.

(** The cast [(float)] of a real, given as a fraction: the quotient of
    numerator and denominator, rounded once. *)
Definition of_Q (q : Q) : spec_float :=
  match Qnum q with
  | Z0 => S754_zero false
  | Zpos n =>
      SFdiv prec emax (S754_finite false n 0) (S754_finite false (Qden q) 0)
  | Zneg n =>
      SFdiv prec emax (S754_finite true n 0) (S754_finite false (Qden q) 0)
  end.

Definition div : spec_float -> spec_float -> spec_float := SFdiv prec emax.

(** The number a finite float stands for. *)
Definition value (f : spec_float) : option Q :=
  match f with
  | S754_zero _ => Some 0%Q
  | S754_finite s m e =>
      Some ((if s then -(1) else 1) * inject_Z (Zpos m) * (2 # 1) ^ e)%Q
  | _ => None
  end.

End Float32.

(** The error monad of the embedding. *)
Definition bind {A B : Type} (m : option A) (k : A -> option B) : option B :=
  match m with
  | Some a => k a
  | None => None
  end.

Notation "x <- m ;; k" := (bind m (fun x => k))
  (at level 61, m at next level, right associativity).

(** ** The Qt objects the view relies on *)

Module Qt.

(** [QAbstractSlider], the base of [QScrollBar]. *)
Record QScrollBar := mkScrollBar {
  minimum : Z;
  maximum : Z;
  value : Z;
  singleStep : Z;
  pageStep : Z
}.

(** [d->bound(v)]: [qMax(minimum, qMin(maximum, v))]. *)
Definition bound (sb : QScrollBar) (v : Z) : Z :=
  Z.max (minimum sb) (Z.min (maximum sb) v).

Definition setValue (v : Z) (sb : QScrollBar) : QScrollBar :=
  mkScrollBar (minimum sb) (maximum sb) (bound sb v)
              (singleStep sb) (pageStep sb).

(** [setRange(min, max)]: the maximum is raised to the minimum when below
    it, and the value is bounded again when the range changed. *)
Definition setRange (lo hi : Z) (sb : QScrollBar) : QScrollBar :=
  let sb' := mkScrollBar lo (Z.max lo hi) (value sb)
                         (singleStep sb) (pageStep sb) in
  if (minimum sb =? minimum sb') && (maximum sb =? maximum sb')
  then sb'
  else setValue (value sb) sb'.


(** [setMaximum(max)] is [setRange(qMin(minimum, max), max)]: the minimum
    is lowered when the new maximum is below it. *)
Definition setMaximum (hi : Z) (sb : QScrollBar) : QScrollBar :=
  setRange (Z.min (minimum sb) hi) hi sb.

(** The steps are stored as absolute values. *)
Definition setSingleStep (st : Z) (sb : QScrollBar) : QScrollBar :=
  mkScrollBar (minimum sb) (maximum sb) (value sb)
              (wrap32 (Z.abs st)) (pageStep sb).

Definition setPageStep (st : Z) (sb : QScrollBar) : QScrollBar :=
  mkScrollBar (minimum sb) (maximum sb) (value sb)
              (singleStep sb) (wrap32 (Z.abs st)).

(** [QRect] keeps its two corners; [right() = left() + width() - 1]. *)
Record QRect := mkRectCorners { x1 : Z; y1 : Z; x2 : Z; y2 : Z }.

Definition mkRect (x y w h : Z) : QRect :=
  mkRectCorners x y (wrap32 (x + w - 1)) (wrap32 (y + h - 1)).

Definition left (r : QRect) : Z := x1 r.
Definition right (r : QRect) : Z := x2 r.
Definition width (r : QRect) : Z := wrap32 (x2 r - x1 r + 1).
Definition height (r : QRect) : Z := wrap32 (y2 r - y1 r + 1).

Inductive QEventType :=
| MouseButtonPress | MouseMove | MouseButtonRelease
| MouseButtonDblClick | Wheel | OtherEvent.

(** [QMouseEvent(type, pos, button, buttons, modifiers)]. *)
Record QMouseEvent := mkMouseEvent {
  evType : QEventType;
  posX : Z;
  posY : Z;
  button : Z;
  buttons : Z;
  modifiers : Z
}.

(** What an event filter receives: [event->type()] together with the
    payload the code reads after its cast. *)
Inductive QEvent :=
| EvMouse (m : QMouseEvent)
| EvWheel (angleDeltaY : Z)
| EvOther.

Definition ControlModifier : Z := 67108864.

End Qt.

(** ** Data model *)

(** Modelled from the spec: [range_t<T>] of util.h, a pair of bounds with
    [length() = maximum - minimum], computed in the element type [T]. *)
Record range_t := mkRange { minimum : Z; maximum : Z }.

Module Range.
Definition length (wrapT : Z -> Z) (r : range_t) : Z :=
  wrapT (maximum r - minimum r).
End Range.

(** Modelled from the spec: the root sample source of inputsource.h, as far
    as the view reads it: [count()] is an [off_t], [rate()] a real. *)
Record InputSource := mkInput { count : Z; rate : Q }.

(** Modelled from the spec: the contract of plot.h that the view uses, a
    fixed height and a hook that tells whether a pointer event was
    consumed. *)
Record Plot := mkPlot {
  height : Z;
  mouseEvent : Qt.QEventType -> Qt.QMouseEvent -> bool
}.

(** Modelled from the spec: the parameters the view forwards to the
    spectrogram plot of spectrogramplot.h. *)
Record SpectrogramPlot := mkSpectrogram {
  spFFTSize : Z;
  spZoomLevel : Z
}.

(** Modelled from the spec: the selection overlay of cursors.h, as far as
    the view uses it: the pixel-space selection ([selection()] returns what
    [setSelection] stored) and the number of segments. *)
Record Cursors := mkCursors {
  selection : range_t;
  segments : Z
}.

Definition setSelection (r : range_t) (c : Cursors) : Cursors :=
  mkCursors r (segments c).


(** What the view sends out: its signals, and repaint requests made with
    [viewport()->update()]. The selection time is a [float]. *)
Inductive Signal :=
| timeSelectionChanged (t : spec_float)
| zoomIn
| zoomOut
| viewportUpdate.

Record PlotView := mkPlotView {
  mainSampleSource : InputSource;
  fftSize : Z;
  zoomLevel : Z;
  viewRange : range_t;
  selectedSamples : range_t;
  cursorsEnabled : bool;
  cursors : Cursors;
  plots : list Plot;
  spectrogramPlot : option SpectrogramPlot;
  horizontalScrollBar : Qt.QScrollBar;
  verticalScrollBar : Qt.QScrollBar;
  width : Z;
  viewport : Qt.QRect;
  emitted : list Signal
}.

Section Setters.
Variable s : PlotView.

Definition with_zoom (size zoom : Z) (sp : option SpectrogramPlot) :=
  mkPlotView (mainSampleSource s) size zoom (viewRange s)
    (selectedSamples s) (cursorsEnabled s) (cursors s) (plots s) sp
    (horizontalScrollBar s) (verticalScrollBar s) (width s) (viewport s)
    (emitted s).

Definition with_viewRange (r : range_t) :=
  mkPlotView (mainSampleSource s) (fftSize s) (zoomLevel s) r
    (selectedSamples s) (cursorsEnabled s) (cursors s) (plots s)
    (spectrogramPlot s) (horizontalScrollBar s) (verticalScrollBar s)
    (width s) (viewport s) (emitted s).

Definition with_selectedSamples (r : range_t) :=
  mkPlotView (mainSampleSource s) (fftSize s) (zoomLevel s) (viewRange s)
    r (cursorsEnabled s) (cursors s) (plots s) (spectrogramPlot s)
    (horizontalScrollBar s) (verticalScrollBar s) (width s) (viewport s)
    (emitted s).

Definition with_cursorsEnabled (b : bool) :=
  mkPlotView (mainSampleSource s) (fftSize s) (zoomLevel s) (viewRange s)
    (selectedSamples s) b (cursors s) (plots s) (spectrogramPlot s)
    (horizontalScrollBar s) (verticalScrollBar s) (width s) (viewport s)
    (emitted s).

Definition with_cursors (c : Cursors) :=
  mkPlotView (mainSampleSource s) (fftSize s) (zoomLevel s) (viewRange s)
    (selectedSamples s) (cursorsEnabled s) c (plots s) (spectrogramPlot s)
    (horizontalScrollBar s) (verticalScrollBar s) (width s) (viewport s)
    (emitted s).

Definition with_horizontalScrollBar (sb : Qt.QScrollBar) :=
  mkPlotView (mainSampleSource s) (fftSize s) (zoomLevel s) (viewRange s)
    (selectedSamples s) (cursorsEnabled s) (cursors s) (plots s)
    (spectrogramPlot s) sb (verticalScrollBar s) (width s) (viewport s)
    (emitted s).

Definition with_verticalScrollBar (sb : Qt.QScrollBar) :=
  mkPlotView (mainSampleSource s) (fftSize s) (zoomLevel s) (viewRange s)
    (selectedSamples s) (cursorsEnabled s) (cursors s) (plots s)
    (spectrogramPlot s) (horizontalScrollBar s) sb (width s) (viewport s)
    (emitted s).

(** [emit sig] and [viewport()->update()] append to the log. *)
Definition emit (sig : Signal) :=
  mkPlotView (mainSampleSource s) (fftSize s) (zoomLevel s) (viewRange s)
    (selectedSamples s) (cursorsEnabled s) (cursors s) (plots s)
    (spectrogramPlot s) (horizontalScrollBar s) (verticalScrollBar s)
    (width s) (viewport s) (emitted s ++ [sig]).
End Setters.

(** ** Operations of [PlotView] *)

(** [samplesPerLine()]: [fftSize / zoomLevel], an [int] division whose
    result is widened to [off_t]. *)
Definition samplesPerLine (s : PlotView) : option Z :=
  int_div (fftSize s) (zoomLevel s).

(** [plotsHeight()]: the [int] sum of the plot heights. *)
Definition plotsHeight (s : PlotView) : Z :=
  fold_left (fun acc p => wrap32 (acc + height p)) (plots s) 0.

(** The two conversions between an absolute sample offset and a pixel
    column, as [cursorsMoved] and [updateView] write them. *)
Definition columnToSample (scroll spl col : Z) : Z :=
  wrap64 (scroll + wrap64 (col * spl)).

Definition sampleToColumn (scroll spl sample : Z) : option Z :=
  q <- off_div (wrap64 (sample - scroll)) spl ;;
  Some (wrap32 q).

Definition cursorsMoved (s : PlotView) : option PlotView :=
  spl <- samplesPerLine s ;;
  let scroll := Qt.value (horizontalScrollBar s) in
  let sel := mkRange
    (columnToSample scroll spl (minimum (selection (cursors s))))
    (columnToSample scroll spl (maximum (selection (cursors s)))) in
  let s1 := with_selectedSamples s sel in
  let sampleCount := Range.length wrap64 (selectedSamples s1) in
  let selectionTime :=
    Float32.div (Float32.of_Z sampleCount)
                (Float32.of_Q (rate (mainSampleSource s1))) in
  Some (emit (emit s1 (timeSelectionChanged selectionTime)) viewportUpdate).

Definition enableCursors (enabled : bool) (s : PlotView) : PlotView :=
  let s1 := with_cursorsEnabled s enabled in
  let s2 :=
    if enabled then
      (* the divisor is the constant 3: no failure *)
      let margin := Qt.width (viewport s1) ÷ 3 in
      with_cursors s1
        (setSelection
           (mkRange (wrap32 (Qt.left (viewport s1) + margin))
                    (wrap32 (Qt.right (viewport s1) - margin)))
           (cursors s1))
    else s1 in
  emit s2 viewportUpdate.


(** The body of [updateView] run once, no callback of the scroll bars
    delivered: what the call does while no scroll position moves, and what
    it leaves of the scroll bars, the cursors and the selection in any
    case. [Reentrant.updateView] below delivers the callbacks. *)
Definition updateView (reCenter : bool) (s : PlotView) : option PlotView :=
  (* Store old view for recentering *)
  let oldViewRange := viewRange s in
  (* Update current view *)
  spl <- samplesPerLine s ;;
  let scroll := Qt.value (horizontalScrollBar s) in
  let s1 := with_viewRange s
    (mkRange scroll (wrap64 (scroll + wrap64 (width s * spl)))) in
  (* Adjust time offset to zoom around central sample *)
  let hb1 :=
    if reCenter then
      Qt.setValue
        (wrap32 (wrap64 (scroll +
           wrap64 (Range.length wrap64 oldViewRange
                   - Range.length wrap64 (viewRange s1)) ÷ 2)))
        (horizontalScrollBar s1)
    else horizontalScrollBar s1 in
  let hb2 :=
    Qt.setMaximum
      (wrap32 (wrap64 (count (mainSampleSource s1)
                       - wrap64 (wrap32 (width s1 - 1) * spl))))
      hb1 in
  let s2 := with_horizontalScrollBar s1 hb2 in
  let s3 := with_verticalScrollBar s2
    (Qt.setMaximum
       (Z.max 0 (wrap32 (plotsHeight s2 - Qt.height (viewport s2))))
       (verticalScrollBar s2)) in
  (* Update cursors *)
  let scroll' := Qt.value (horizontalScrollBar s3) in
  lo <- sampleToColumn scroll' spl (minimum (selectedSamples s3)) ;;
  hi <- sampleToColumn scroll' spl (maximum (selectedSamples s3)) ;;
  let s4 := with_cursors s3 (setSelection (mkRange lo hi) (cursors s3)) in
  (* Re-paint *)
  Some (emit s4 viewportUpdate).

(** [setFFTAndZoom], ending with the body of [updateView] run once. *)
Definition setFFTAndZoom (size zoom : Z) (s : PlotView) : option PlotView :=
  let forward sp := mkSpectrogram size zoom in
  let s1 := with_zoom s size zoom (option_map forward (spectrogramPlot s)) in
  (* Update horizontal (time) scrollbar *)
  single <- int_div (wrap32 (size * 10)) (zoomLevel s1) ;;
  page <- int_div (wrap32 (size * 100)) (zoomLevel s1) ;;
  let s2 := with_horizontalScrollBar s1
    (Qt.setPageStep page
       (Qt.setSingleStep single (horizontalScrollBar s1))) in
  updateView true s2.

(** *** Routing of pointer events *)

Inductive Receiver :=
| ToOverlay
| ToPlot (index : nat).

(** One call of a [mouseEvent] hook: who was offered what. *)
Definition Offer : Type := Receiver * Qt.QMouseEvent.

Section EventFilter.

(** Modelled from the spec: [Cursors::mouseEvent] of cursors.h, the
    overlay's hook; it tells whether the overlay consumed the event. *)
Variable cursorsMouseEvent :
  Cursors -> Qt.QEventType -> Qt.QMouseEvent -> bool.

(** [QApplication::keyboardModifiers()] when the filter runs. *)
Variable keyboardModifiers : Z.

(** The loop over [plots], from the plot of index [index] on, [plotY]
    being the accumulated offset. *)
Fixpoint offerToPlots (m : Qt.QMouseEvent) (plotY : Z) (index : nat)
    (ps : list Plot) : bool * list Offer :=
  match ps with
  | [] => (false, [])
  | plot :: rest =>
      let local := Qt.mkMouseEvent (Qt.evType m) (Qt.posX m)
                     (wrap32 (Qt.posY m - plotY)) (Qt.button m)
                     (Qt.buttons m) keyboardModifiers in
      if mouseEvent plot (Qt.evType m) local
      then (true, [(ToPlot index, local)])
      else
        let '(result, offers) :=
          offerToPlots m (wrap32 (plotY + height plot)) (S index) rest in
        (result, (ToPlot index, local) :: offers)
  end.

Definition isPointerEvent (t : Qt.QEventType) : bool :=
  match t with
  | Qt.MouseButtonPress | Qt.MouseMove | Qt.MouseButtonRelease => true
  | _ => false
  end.

(** [eventFilter]: the value returned, the hooks called in order, and
    the view as the filter itself leaves it, that is with the signals it
    emitted. The hooks are taken by what they answer: what a hook does to
    the view besides (the overlay moving a cursor and emitting
    [cursorsMoved], which runs the slot of that name; a plot tuning) is not
    in the third component, which says how the view was left only for the
    events that reach no hook. *)
Definition eventFilter (event : Qt.QEvent) (s : PlotView)
    : bool * list Offer * PlotView :=
  match event with
  | Qt.EvMouse m =>
      if isPointerEvent (Qt.evType m) then
        if cursorsMouseEvent (cursors s) (Qt.evType m) m
        then (true, [(ToOverlay, m)], s)
        else
          let plotY := wrap32 (- Qt.value (verticalScrollBar s)) in
          let '(result, offers) := offerToPlots m plotY 0%nat (plots s) in
          (result, (ToOverlay, m) :: offers, s)
      else (false, [], s)
  | Qt.EvWheel dy =>
      if Z.land keyboardModifiers Qt.ControlModifier =? 0
      then (false, [], s)
      else if 0 <? dy then (true, [], emit s zoomIn)
      else if dy <? 0 then (true, [], emit s zoomOut)
      else (true, [], s)
  | Qt.EvOther => (false, [], s)
  end.

End EventFilter.

(** ** States *)

(** The members and Qt properties of C++ type [int] hold [int]s. *)
Definition valid (s : PlotView) : Prop :=
  is_int (fftSize s) /\ is_int (zoomLevel s) /\ is_int (width s) /\
  is_int (Qt.value (horizontalScrollBar s)) /\
  is_int (minimum (selection (cursors s))) /\
  is_int (maximum (selection (cursors s))).

(** A scroll bar as Qt keeps it: [int] bounds with the value in between. *)
Definition scrollbar_ok (sb : Qt.QScrollBar) : Prop :=
  is_int (Qt.minimum sb) /\ is_int (Qt.maximum sb) /\
  Qt.minimum sb <= Qt.value sb <= Qt.maximum sb.

(** A view on [cnt] samples at rate 1000, [w] columns wide and [h] pixels
    high, without plots, the vertical scroll bar at rest. *)
Definition exampleView (cnt fft zoom w h : Z) (hbar : Qt.QScrollBar)
    (view selected pixels : range_t) : PlotView :=
  mkPlotView (mkInput cnt (1000 # 1)) fft zoom view selected true
    (mkCursors pixels 1) [] None hbar (Qt.mkScrollBar 0 0 0 1 10)
    w (Qt.mkRect 0 0 w h) [].

(** ** What the routing of a pointer event amounts to *)

(** The sum of the heights of the [i] first plots. *)
Definition cumulativeHeight (ps : list Plot) (i : nat) : Z :=
  fold_right Z.add 0 (map height (firstn i ps)).

(** Where plot [i] starts on the screen: the heights of the plots above it,
    less the vertical scroll position. *)
Definition plotTop (s : PlotView) (i : nat) : Z :=
  cumulativeHeight (plots s) i - Qt.value (verticalScrollBar s).

(** The event a plot starting at [top] is offered. *)
Definition localEvent (keyboardModifiers : Z) (m : Qt.QMouseEvent)
    (top : Z) : Qt.QMouseEvent :=
  Qt.mkMouseEvent (Qt.evType m) (Qt.posX m) (wrap32 (Qt.posY m - top))
    (Qt.button m) (Qt.buttons m) keyboardModifiers.

(** The translation as the specification words it: the cumulative height
    and the vertical scroll position are both subtracted. *)
Definition specLocalY (y cumulative scroll : Z) : Z :=
  y - cumulative - scroll.

(** How a pointer event went through the plots [ps], each offered the event
    made by [ev] from its index: [n] plots were asked, none before the last
    of them consumed the event, and either that one did or all declined. *)
Definition routed (t : Qt.QEventType) (ev : nat -> Qt.QMouseEvent)
    (ps : list Plot) (first : nat) (result : bool) (offers : list Offer)
    (n : nat) : Prop :=
  (n <= length ps)%nat /\
  offers = map (fun i => (ToPlot (first + i), ev i)) (seq 0 n) /\
  (forall i p, (S i < n)%nat -> nth_error ps i = Some p ->
               mouseEvent p t (ev i) = false) /\
  ((result = true /\
    exists k p, n = S k /\ nth_error ps k = Some p /\
                mouseEvent p t (ev k) = true) \/
   (result = false /\ n = length ps /\
    forall i p, nth_error ps i = Some p -> mouseEvent p t (ev i) = false)).

(** A view whose plots are [ps], scrolled down by [scroll] pixels. *)
Definition stackedView (ps : list Plot) (scroll : Z) : PlotView :=
  mkPlotView (mkInput 1000 (1000 # 1)) 64 1 (mkRange 0 640) (mkRange 0 0)
    false (mkCursors (mkRange 0 0) 1) ps None
    (Qt.mkScrollBar 0 424 0 1 10) (Qt.mkScrollBar 0 100 scroll 1 10)
    10 (Qt.mkRect 0 0 10 100) [].

Definition pressAt (x y : Z) : Qt.QMouseEvent :=
  Qt.mkMouseEvent Qt.MouseButtonPress x y 1 1 0.

Definition declines : Qt.QEventType -> Qt.QMouseEvent -> bool :=
  fun _ _ => false.

Definition consumes : Qt.QEventType -> Qt.QMouseEvent -> bool :=
  fun _ _ => true.

(** ** Further operations of [PlotView] *)

(** [addPlot]: [plots.emplace_back(plot)]; the connection of the plot's
    [repaint] signal belongs to signal delivery. *)
Definition addPlot (plot : Plot) (s : PlotView) : PlotView :=
  mkPlotView (mainSampleSource s) (fftSize s) (zoomLevel s) (viewRange s)
    (selectedSamples s) (cursorsEnabled s) (cursors s) (plots s ++ [plot])
    (spectrogramPlot s) (horizontalScrollBar s) (verticalScrollBar s)
    (width s) (viewport s) (emitted s).


(** *** The scroll bars calling back

    [QAbstractSlider::setValue], and [setRange] when it has to bound the
    value again, emit [valueChanged] as soon as the value is another one;
    the scroll area answers at once with [scrollContentsBy], which calls
    [updateView()], whose argument defaults to [false]. The calls nest, so
    the definition takes fuel; four levels are all that ever occur
    ([updateView_settles]). *)

Inductive Run :=
| Done (s : PlotView)
| Undefined
| OutOfFuel.

Definition andThen (r : Run) (k : PlotView -> Run) : Run :=
  match r with
  | Done s => k s
  | Undefined => Undefined
  | OutOfFuel => OutOfFuel
  end.

Module Reentrant.

(** A scroll bar went from [before] to [after]; [s] is the view with the
    bar as it is now, [self] the slot to run when the value moved. *)
Definition delivered (self : PlotView -> Run)
    (before after : Qt.QScrollBar) (s : PlotView) : Run :=
  if Qt.value before =? Qt.value after then Done s else self s.

(** The arguments of the two calls of [setMaximum]. *)
Definition horizontalMaximum (spl : Z) (s : PlotView) : Z :=
  wrap32 (wrap64 (count (mainSampleSource s)
                  - wrap64 (wrap32 (width s - 1) * spl))).

Definition verticalMaximum (s : PlotView) : Z :=
  Z.max 0 (wrap32 (plotsHeight s - Qt.height (viewport s))).

(** The end of [updateView]: the cursors and the repaint. *)
Definition finish (spl : Z) (s : PlotView) : Run :=
  let scroll := Qt.value (horizontalScrollBar s) in
  match sampleToColumn scroll spl (minimum (selectedSamples s)),
        sampleToColumn scroll spl (maximum (selectedSamples s)) with
  | Some lo, Some hi =>
      Done (emit (with_cursors s (setSelection (mkRange lo hi) (cursors s)))
                 viewportUpdate)
  | _, _ => Undefined
  end.

(** [updateView] from the first [setMaximum] on. *)
Definition settle (self : PlotView -> Run) (spl : Z) (s : PlotView) : Run :=
  let hb := Qt.setMaximum (horizontalMaximum spl s) (horizontalScrollBar s) in
  andThen (delivered self (horizontalScrollBar s) hb
             (with_horizontalScrollBar s hb))
    (fun s3 =>
       let vb := Qt.setMaximum (verticalMaximum s3) (verticalScrollBar s3) in
       andThen (delivered self (verticalScrollBar s3) vb
                  (with_verticalScrollBar s3 vb))
         (finish spl)).

Definition updateViewBody (self : PlotView -> Run) (reCenter : bool)
    (s : PlotView) : Run :=
  (* Store old view for recentering *)
  let oldViewRange := viewRange s in
  match samplesPerLine s with
  | None => Undefined
  | Some spl =>
      (* Update current view *)
      let scroll := Qt.value (horizontalScrollBar s) in
      let s1 := with_viewRange s
        (mkRange scroll (wrap64 (scroll + wrap64 (width s * spl)))) in
      (* Adjust time offset to zoom around central sample *)
      andThen
        (if reCenter then
           let hb :=
             Qt.setValue
               (wrap32 (wrap64 (scroll +
                  wrap64 (Range.length wrap64 oldViewRange
                          - Range.length wrap64 (viewRange s1)) ÷ 2)))
               (horizontalScrollBar s1) in
           delivered self (horizontalScrollBar s1) hb
             (with_horizontalScrollBar s1 hb)
         else Done s1)
        (settle self spl)
  end.

Fixpoint updateView (fuel : nat) (reCenter : bool) (s : PlotView) : Run :=
  match fuel with
  | O => OutOfFuel
  | S fuel' => updateViewBody (updateView fuel' false) reCenter s
  end.



(** [setFFTAndZoom]: the steps move no scroll position; the call ends with
    [updateView(true)]. *)
Definition setFFTAndZoom (fuel : nat) (size zoom : Z) (s : PlotView) : Run :=
  let forward sp := mkSpectrogram size zoom in
  let s1 := with_zoom s size zoom (option_map forward (spectrogramPlot s)) in
  (* Update horizontal (time) scrollbar *)
  match int_div (wrap32 (size * 10)) (zoomLevel s1),
        int_div (wrap32 (size * 100)) (zoomLevel s1) with
  | Some single, Some page =>
      let s2 := with_horizontalScrollBar s1
        (Qt.setPageStep page
           (Qt.setSingleStep single (horizontalScrollBar s1))) in
      updateView fuel true s2
  | _, _ => Undefined
  end.


End Reentrant.

(** Where [updateView] comes to rest: the view of [s] with the scroll bars
    [hb] and [vb], the view range and the cursors of the scroll position
    of [hb], and [repaints] more repaints requested. *)
Definition settled (spl : Z) (s : PlotView) (hb vb : Qt.QScrollBar)
    (repaints : nat) : PlotView :=
  mkPlotView (mainSampleSource s) (fftSize s) (zoomLevel s)
    (mkRange (Qt.value hb) (wrap64 (Qt.value hb + wrap64 (width s * spl))))
    (selectedSamples s) (cursorsEnabled s)
    (setSelection
       (mkRange
          (wrap32 (wrap64 (minimum (selectedSamples s) - Qt.value hb) ÷ spl))
          (wrap32 (wrap64 (maximum (selectedSamples s) - Qt.value hb) ÷ spl)))
       (cursors s))
    (plots s) (spectrogramPlot s) hb vb (width s) (viewport s)
    (emitted s ++ repeat viewportUpdate repaints).

(** The position [updateView(true)] asks the scroll bar for. *)
Definition recentred (spl : Z) (s : PlotView) : Z :=
  let scroll := Qt.value (horizontalScrollBar s) in
  wrap32 (wrap64 (scroll +
    wrap64 (Range.length wrap64 (viewRange s)
            - Range.length wrap64
                (mkRange scroll (wrap64 (scroll + wrap64 (width s * spl)))))
    ÷ 2)).

(** The bars [updateView] leaves: those of the body run once. *)
Definition horizontalBar (reCenter : bool) (spl : Z) (s : PlotView)
    : Qt.QScrollBar :=
  Qt.setMaximum (Reentrant.horizontalMaximum spl s)
    (if reCenter
     then Qt.setValue (recentred spl s) (horizontalScrollBar s)
     else horizontalScrollBar s).

Definition verticalBar (s : PlotView) : Qt.QScrollBar :=
  Qt.setMaximum (Reentrant.verticalMaximum s) (verticalScrollBar s).

(** The view range is the one of the scroll position. *)
Definition shown (spl : Z) (s : PlotView) : Prop :=
  viewRange s =
    mkRange (Qt.value (horizontalScrollBar s))
      (wrap64 (Qt.value (horizontalScrollBar s) + wrap64 (width s * spl))).

(** A scroll bar that [setMaximum] leaves alone. *)
Definition hrest (spl : Z) (s : PlotView) : Prop :=
  Qt.setMaximum (Reentrant.horizontalMaximum spl s) (horizontalScrollBar s)
  = horizontalScrollBar s.

Definition vrest (s : PlotView) : Prop :=
  Qt.setMaximum (Reentrant.verticalMaximum s) (verticalScrollBar s)
  = verticalScrollBar s.

(** *** Painting *)

Inductive Layer := paintBack | paintMid | paintFront.

(** What [paintEvent] asks of the painter, the plots and the overlay. *)
Inductive PaintCall :=
| FillBlack (rect : Qt.QRect)
| PlotPaint (layer : Layer) (index : nat) (rect : Qt.QRect) (range : range_t)
| CursorsPaintFront (rect : Qt.QRect) (range : range_t).

(** The macro [PLOT_LAYER(paintFunc)], from the plot of index [index] on,
    [y] being the accumulated offset. *)
Fixpoint PLOT_LAYER (paintFunc : Layer) (w : Z) (range : range_t) (y : Z)
    (index : nat) (ps : list Plot) : list PaintCall :=
  match ps with
  | [] => []
  | plot :: rest =>
      PlotPaint paintFunc index (Qt.mkRect 0 y w (height plot)) range
      :: PLOT_LAYER paintFunc w range (wrap32 (y + height plot)) (S index) rest
  end.

(** [paintEvent]. Whether [mainSampleSource] is null and the widget's
    [height()], which the record does not keep, are arguments. *)
Definition paintEvent (sourceIsNull : bool) (widgetHeight : Z)
    (s : PlotView) : list PaintCall :=
  if sourceIsNull then []
  else
    let rect := Qt.mkRect 0 0 (width s) widgetHeight in
    let y := wrap32 (- Qt.value (verticalScrollBar s)) in
    FillBlack rect
    :: PLOT_LAYER paintBack (width s) (viewRange s) y 0%nat (plots s)
    ++ PLOT_LAYER paintMid (width s) (viewRange s) y 0%nat (plots s)
    ++ PLOT_LAYER paintFront (width s) (viewRange s) y 0%nat (plots s)
    ++ (if cursorsEnabled s
        then [CursorsPaintFront rect (viewRange s)]
        else []).

(** The strip of the viewport that plot [i], [plot], is painted in. *)
Definition plotRect (s : PlotView) (i : nat) (plot : Plot) : Qt.QRect :=
  Qt.mkRect 0 (wrap32 (plotTop s i)) (width s) (height plot).

(** The calls of one layer, written out plot by plot. *)
Definition layerCalls (paintFunc : Layer) (s : PlotView) : list PaintCall :=
  map (fun ip => PlotPaint paintFunc (fst ip) (plotRect s (fst ip) (snd ip))
                   (viewRange s))
      (combine (seq 0 (length (plots s))) (plots s)).

(** ** Arithmetic of the machine integers *)

(** Unfolds the ranges of the machine integers down to their numerals. *)
Ltac unfold_ranges :=
  unfold is_int, is_off, INT_MIN, INT_MAX, OFF_MIN, OFF_MAX;
  change (2 ^ 31) with 2147483648;
  change (2 ^ 63) with 9223372036854775808.

Section WrapFacts.

Lemma wrap32_id z : is_int z -> wrap32 z = z.
Proof.
  unfold is_int, INT_MIN, INT_MAX, wrap32, wrap. intros H.
  change (2 ^ (32 - 1)) with 2147483648.
  change (2 ^ 32) with 4294967296.
  change (2 ^ 31) with 2147483648 in H.
  rewrite Z.mod_small; lia.
Qed.

Lemma wrap64_id z : is_off z -> wrap64 z = z.
Proof.
  unfold is_off, OFF_MIN, OFF_MAX, wrap64, wrap. intros H.
  change (2 ^ (64 - 1)) with 9223372036854775808.
  change (2 ^ 64) with 18446744073709551616.
  change (2 ^ 63) with 9223372036854775808 in H.
  rewrite Z.mod_small; lia.
Qed.

Lemma wrap32_is_int z : is_int (wrap32 z).
Proof.
  unfold is_int, INT_MIN, INT_MAX, wrap32, wrap.
  change (2 ^ (32 - 1)) with 2147483648.
  change (2 ^ 32) with 4294967296.
  change (2 ^ 31) with 2147483648.
  pose proof (Z.mod_pos_bound (z + 2147483648) 4294967296). lia.
Qed.

(** Wrapping commutes with arithmetic on already wrapped operands. *)
Lemma wrap32_sub_r a b : wrap32 (a - wrap32 b) = wrap32 (a - b).
Proof.
  unfold wrap32, wrap.
  change (2 ^ (32 - 1)) with 2147483648.
  change (2 ^ 32) with 4294967296.
  f_equal.
  replace (a - ((b + 2147483648) mod 4294967296 - 2147483648) + 2147483648)
    with ((a + 4294967296) - (b + 2147483648) mod 4294967296) by lia.
  rewrite Zminus_mod_idemp_r.
  replace (a + 4294967296 - (b + 2147483648))
    with (a - b + 2147483648) by lia.
  reflexivity.
Qed.

(** The product of two [int]s, and a scroll position added to it, fit an
    [off_t]. *)
Lemma int_mul_is_off a b : is_int a -> is_int b -> is_off (a * b).
Proof.
  unfold_ranges. nia.
Qed.

Lemma int_add_mul_is_off v a b :
  is_int v -> is_int a -> is_int b -> is_off (v + a * b).
Proof.
  unfold_ranges. nia.
Qed.

Lemma cdiv_pos lo a b : 1 <= b -> cdiv lo a b = Some (a ÷ b).
Proof.
  intros Hb. unfold cdiv.
  destruct (Z.eqb_spec b 0); [lia|].
  destruct (Z.eqb_spec b (-1)); [lia|].
  now rewrite andb_false_r.
Qed.

(** A quotient that is defined and at least one comes from an [int]
    dividend and is itself an [int]. *)
Lemma quot_abs_le a b : b <> 0 -> Z.abs (a ÷ b) <= Z.abs a.
Proof.
  intros Hb. rewrite <- Z.quot_abs by assumption.
  apply Z.quot_le_upper_bound; nia.
Qed.

(** A defined [int] quotient of an [int] dividend is itself an [int]. *)
Lemma int_div_is_int a b q :
  is_int a -> int_div a b = Some q -> is_int q.
Proof.
  unfold int_div, cdiv, is_int, INT_MIN, INT_MAX.
  change (- 2 ^ 31) with (-2147483648).
  change (2 ^ 31) with 2147483648. intros Ha H.
  destruct (Z.eqb_spec b 0) as [|Hb]; [discriminate|].
  pose proof (quot_abs_le a b Hb) as Habs.
  destruct (Z.eqb_spec a (-2147483648)) as [Ea|Ea],
           (Z.eqb_spec b (-1)) as [Eb|Eb];
    simpl in H; try discriminate; injection H as <-.
  - assert (a ÷ b <> 2147483648).
    { intros E. pose proof (Z.quot_rem' a b) as Hqr. rewrite E in Hqr.
      pose proof (Z.rem_bound_abs a b Hb).
      pose proof (Z.rem_nonpos a b Hb ltac:(lia)). lia. }
    lia.
  - lia.
  - lia.
Qed.

End WrapFacts.

(** ** Facts on the scroll bar *)

Lemma setMaximum_maximum hi sb : Qt.maximum (Qt.setMaximum hi sb) = hi.
Proof.
  unfold Qt.setMaximum, Qt.setRange. cbn.
  destruct (_ && _); cbn; lia.
Qed.

Lemma setMaximum_minimum hi sb :
  Qt.minimum (Qt.setMaximum hi sb) = Z.min (Qt.minimum sb) hi.
Proof.
  unfold Qt.setMaximum, Qt.setRange. cbn.
  destruct (_ && _); reflexivity.
Qed.

Lemma setMaximum_value hi sb :
  Qt.minimum sb <= Qt.value sb <= Qt.maximum sb ->
  Qt.minimum sb <= hi ->
  Qt.value (Qt.setMaximum hi sb) = Z.min hi (Qt.value sb).
Proof.
  intros Hv Hhi. unfold Qt.setMaximum, Qt.setRange. cbn.
  destruct (Z.eqb_spec (Qt.minimum sb) (Z.min (Qt.minimum sb) hi)),
           (Z.eqb_spec (Qt.maximum sb)
                       (Z.max (Z.min (Qt.minimum sb) hi) hi));
    cbn; unfold Qt.bound; cbn; lia.
Qed.

(** ** The view range *)

Lemma sampleToColumn_pos scroll spl a :
  1 <= spl ->
  sampleToColumn scroll spl a = Some (wrap32 (wrap64 (a - scroll) ÷ spl)).
Proof.
  intros H. unfold sampleToColumn, off_div. now rewrite cdiv_pos.
Qed.

Lemma samplesPerLine_is_int s spl :
  is_int (fftSize s) -> samplesPerLine s = Some spl -> is_int spl.
Proof. unfold samplesPerLine. apply int_div_is_int. Qed.

(** [updateView] goes through whenever the samples per column are defined
    and positive; the scroll bar it leaves is the one written here. *)
Lemma updateView_runs reCenter s spl :
  samplesPerLine s = Some spl -> 1 <= spl ->
  exists s',
    updateView reCenter s = Some s' /\
    viewRange s' =
      mkRange (Qt.value (horizontalScrollBar s))
        (wrap64 (Qt.value (horizontalScrollBar s) + wrap64 (width s * spl))) /\
    horizontalScrollBar s' =
      Qt.setMaximum
        (wrap32 (wrap64 (count (mainSampleSource s)
                         - wrap64 (wrap32 (width s - 1) * spl))))
        (if reCenter then
           Qt.setValue
             (wrap32 (wrap64 (Qt.value (horizontalScrollBar s) +
                wrap64 (Range.length wrap64 (viewRange s)
                        - Range.length wrap64
                            (mkRange (Qt.value (horizontalScrollBar s))
                               (wrap64 (Qt.value (horizontalScrollBar s)
                                        + wrap64 (width s * spl))))) ÷ 2)))
             (horizontalScrollBar s)
         else horizontalScrollBar s) /\
    selection (cursors s') =
      mkRange
        (wrap32 (wrap64 (minimum (selectedSamples s)
                         - Qt.value (horizontalScrollBar s')) ÷ spl))
        (wrap32 (wrap64 (maximum (selectedSamples s)
                         - Qt.value (horizontalScrollBar s')) ÷ spl)) /\
    selectedSamples s' = selectedSamples s /\
    fftSize s' = fftSize s /\ zoomLevel s' = zoomLevel s /\
    width s' = width s /\ mainSampleSource s' = mainSampleSource s.
Proof.
  intros Hspl Hpos. unfold updateView. rewrite Hspl. cbn [bind].
  rewrite !sampleToColumn_pos by assumption. cbn [bind].
  eexists. split; [reflexivity|].
  destruct reCenter; cbn; repeat split; reflexivity.
Qed.

(** ** The horizontal scroll bar *)

(** What [updateView] passes to [setMaximum] becomes the maximum as it is:
    nothing clamps it at zero. *)
Lemma updateView_horizontal_maximum reCenter s spl s' :
  samplesPerLine s = Some spl -> 1 <= spl ->
  updateView reCenter s = Some s' ->
  Qt.maximum (horizontalScrollBar s') =
    wrap32 (wrap64 (count (mainSampleSource s)
                    - wrap64 (wrap32 (width s - 1) * spl))).
Proof.
  intros Hspl Hpos Hrun.
  destruct (updateView_runs reCenter s spl Hspl Hpos)
    as (s2 & Hrun2 & _ & Hbar & _).
  rewrite Hrun in Hrun2. injection Hrun2 as <-.
  rewrite Hbar. apply setMaximum_maximum.
Qed.

(** C2. On an empty source shown ten columns wide at 64 samples per
    column, [updateView] leaves the horizontal maximum at -576, where the
    clamped bound [max(0, count - (width - 1) * samplesPerLine)] is 0. *)
Theorem updateView_horizontal_maximum_negative :
  let s := exampleView 0 64 1 10 100 (Qt.mkScrollBar 0 0 0 1 10)
             (mkRange 0 0) (mkRange 0 0) (mkRange 0 0) in
  exists s',
    updateView false s = Some s' /\
    Qt.maximum (horizontalScrollBar s') = -576 /\
    Qt.maximum (horizontalScrollBar s') < 0 /\
    Z.max 0 (count (mainSampleSource s) - (width s - 1) * 64) = 0.
Proof.
  cbv zeta. eexists. split; [reflexivity|].
  repeat split.
Qed.

(** ** The selection in samples *)

Lemma columnToSample_exact scroll spl col :
  is_int scroll -> is_int spl -> is_int col ->
  columnToSample scroll spl col = scroll + col * spl.
Proof.
  intros Hv Hs Hc. unfold columnToSample.
  rewrite (wrap64_id (col * spl)) by now apply int_mul_is_off.
  apply wrap64_id. now apply int_add_mul_is_off.
Qed.

Lemma cursorsMoved_runs s spl :
  valid s -> samplesPerLine s = Some spl ->
  exists s',
    cursorsMoved s = Some s' /\
    selectedSamples s' =
      mkRange
        (Qt.value (horizontalScrollBar s)
         + minimum (selection (cursors s)) * spl)
        (Qt.value (horizontalScrollBar s)
         + maximum (selection (cursors s)) * spl) /\
    emitted s' =
      emitted s ++
      [timeSelectionChanged
         (Float32.div
            (Float32.of_Z (maximum (selectedSamples s')
                           - minimum (selectedSamples s')))
            (Float32.of_Q (rate (mainSampleSource s))));
       viewportUpdate].
Proof.
  intros (Hfft & _ & _ & Hv & Hlo & Hhi) Hspl.
  pose proof (samplesPerLine_is_int s spl Hfft Hspl) as Hs.
  unfold cursorsMoved. rewrite Hspl. cbn [bind].
  eexists. split; [reflexivity|]. cbn.
  rewrite !columnToSample_exact by assumption.
  split; [reflexivity|].
  rewrite <- app_assoc. cbn.
  unfold Range.length. cbn. rewrite wrap64_id; [reflexivity|].
  revert Hv Hlo Hhi Hs.
  unfold_ranges. nia.
Qed.

(** C5 (amended). [cursorsMoved] sets each end of the absolute selection
    to the scroll position plus the cursor column times the samples per
    column and reports the selection length divided by the sample rate, the
    division being the one of [float]s. With 1000 samples at rate 1000, FFT
    size 64, zoom 1, scroll position 0 and the cursors at columns 2 and 5,
    the selection is [128, 320) and the time reported is the [float]
    nearest to 0.192, which is 12884902 / 2^26, less than two billionths
    above 0.192. *)
Theorem cursorsMoved_selection_and_time :
  (forall s spl,
     valid s -> samplesPerLine s = Some spl ->
     exists s',
       cursorsMoved s = Some s' /\
       minimum (selectedSamples s') =
         Qt.value (horizontalScrollBar s)
         + minimum (selection (cursors s)) * spl /\
       maximum (selectedSamples s') =
         Qt.value (horizontalScrollBar s)
         + maximum (selection (cursors s)) * spl /\
       emitted s' =
         emitted s ++
         [timeSelectionChanged
            (Float32.div
               (Float32.of_Z (maximum (selectedSamples s')
                              - minimum (selectedSamples s')))
               (Float32.of_Q (rate (mainSampleSource s))));
          viewportUpdate]) /\
  (forall s,
     count (mainSampleSource s) = 1000 ->
     rate (mainSampleSource s) = 1000 # 1 ->
     fftSize s = 64 -> zoomLevel s = 1 -> width s = 10 ->
     Qt.value (horizontalScrollBar s) = 0 ->
     selection (cursors s) = mkRange 2 5 ->
     exists s' t q,
       cursorsMoved s = Some s' /\
       selectedSamples s' = mkRange 128 320 /\
       emitted s' = emitted s ++ [timeSelectionChanged t; viewportUpdate] /\
       t = S754_finite false 12884902 (-26) /\
       Float32.value t = Some q /\
       (0.192 < q)%Q /\ (q - 0.192 < 2 / 1000000000)%Q).
Proof.
  split.
  - intros s spl Hvalid Hspl.
    destruct (cursorsMoved_runs s spl Hvalid Hspl) as (s' & Hrun & Hsel & Hem).
    exists s'. rewrite Hsel in *. cbn [minimum maximum] in *. auto.
  - intros s _ Hrate Hfft Hzoom Hw Hv Hpix.
    assert (Hvalid : valid s).
    { unfold valid, is_int, INT_MIN, INT_MAX.
      rewrite Hfft, Hzoom, Hw, Hv, Hpix. cbn. lia. }
    assert (Hspl : samplesPerLine s = Some 64).
    { unfold samplesPerLine. now rewrite Hfft, Hzoom. }
    destruct (cursorsMoved_runs s 64 Hvalid Hspl) as (s' & Hrun & Hsel & Hem).
    rewrite Hv, Hpix in Hsel. cbn in Hsel.
    rewrite Hsel, Hrate in Hem. cbn [minimum maximum] in Hem.
    exists s'. do 2 eexists. split; [exact Hrun|]. split; [exact Hsel|].
    split; [exact Hem|].
    split; [vm_compute; reflexivity|].
    split; [vm_compute; reflexivity|].
    split; vm_compute; reflexivity.
Qed.

Lemma cursorsMoved_selection_and_time_witness :
  exists s' t q,
    cursorsMoved
      (exampleView 1000 64 1 10 100 (Qt.mkScrollBar 0 1000 0 1 10)
         (mkRange 0 640) (mkRange 0 0) (mkRange 2 5)) = Some s' /\
    selectedSamples s' = mkRange 128 320 /\
    emitted s' = [] ++ [timeSelectionChanged t; viewportUpdate] /\
    t = S754_finite false 12884902 (-26) /\
    Float32.value t = Some q /\
    (0.192 < q)%Q /\ (q - 0.192 < 2 / 1000000000)%Q.
Proof.
  apply (proj2 cursorsMoved_selection_and_time
           (exampleView 1000 64 1 10 100 (Qt.mkScrollBar 0 1000 0 1 10)
              (mkRange 0 640) (mkRange 0 0) (mkRange 2 5)));
    reflexivity.
Defined.

(** The claim as the specification words it: the time reported is 0.192.
    No [float] is 0.192: what is reported in the scenario stands for
    12884902 / 2^26, which is not 0.192. *)
Lemma cursorsMoved_time_counterexample :
  exists s' t q,
    cursorsMoved
      (exampleView 1000 64 1 10 100 (Qt.mkScrollBar 0 1000 0 1 10)
         (mkRange 0 640) (mkRange 0 0) (mkRange 2 5)) = Some s' /\
    emitted s' = [timeSelectionChanged t; viewportUpdate] /\
    Float32.value t = Some q /\
    ~ (q == 0.192)%Q.
Proof.
  do 3 eexists. split; [reflexivity|]. split; [reflexivity|].
  split; [reflexivity|]. vm_compute. discriminate.
Qed.

(** ** Setting the minimum to zero *)


(** ** Enabling the cursors *)

(** C10. [enableCursors(true)] places the pixel selection at one third of
    the viewport width (integer division) inside each edge of the viewport
    rectangle; [enableCursors(false)] only clears the flag and asks for a
    repaint, the stored selections stay. *)
Theorem enableCursors_selection :
  (forall s x y w h,
     viewport s = Qt.mkRect x y w h ->
     INT_MIN < x <= INT_MAX -> 0 <= w <= INT_MAX -> x + w - 1 <= INT_MAX ->
     Qt.width (viewport s) = w /\
     minimum (selection (cursors (enableCursors true s))) =
       Qt.left (viewport s) + w ÷ 3 /\
     maximum (selection (cursors (enableCursors true s))) =
       Qt.right (viewport s) - w ÷ 3 /\
     cursorsEnabled (enableCursors true s) = true /\
     selectedSamples (enableCursors true s) = selectedSamples s) /\
  (forall s,
     cursorsEnabled (enableCursors false s) = false /\
     cursors (enableCursors false s) = cursors s /\
     selectedSamples (enableCursors false s) = selectedSamples s /\
     viewRange (enableCursors false s) = viewRange s /\
     horizontalScrollBar (enableCursors false s) = horizontalScrollBar s /\
     emitted (enableCursors false s) = emitted s ++ [viewportUpdate]).
Proof.
  split.
  - intros s x y w h Hvp Hx Hw Hr.
    assert (Hq : 0 <= w ÷ 3 <= w).
    { split; [apply Z.quot_pos; lia|].
      apply Z.quot_le_upper_bound; lia. }
    assert (Hq1 : w = 0 \/ w ÷ 3 <= w - 1).
    { destruct (Z.eq_dec w 0); [now left|right].
      enough (w ÷ 3 < w) by lia. apply Z.quot_lt; lia. }
    unfold INT_MIN, INT_MAX in *.
    assert (Hright : Qt.right (viewport s) = x + w - 1).
    { rewrite Hvp. cbn. apply wrap32_id.
      unfold is_int, INT_MIN, INT_MAX. lia. }
    assert (Hleft : Qt.left (viewport s) = x) by now rewrite Hvp.
    assert (Hwidth : Qt.width (viewport s) = w).
    { unfold Qt.width. fold (Qt.right (viewport s)) (Qt.left (viewport s)).
      rewrite Hright, Hleft. replace (x + w - 1 - x + 1) with w by lia.
      apply wrap32_id. unfold is_int, INT_MIN, INT_MAX. lia. }
    unfold enableCursors. cbn.
    rewrite Hwidth, Hright, Hleft.
    rewrite !wrap32_id by (unfold is_int, INT_MIN, INT_MAX; lia).
    repeat split.
  - intros s. unfold enableCursors. cbn. repeat split.
Qed.

Lemma enableCursors_selection_witness :
  let s := exampleView 1000 64 1 10 100 (Qt.mkScrollBar 0 424 0 1 10)
             (mkRange 0 640) (mkRange 0 0) (mkRange 0 0) in
  Qt.width (viewport s) = 10 /\
  minimum (selection (cursors (enableCursors true s))) = 3 /\
  maximum (selection (cursors (enableCursors true s))) = 6 /\
  cursorsEnabled (enableCursors true s) = true /\
  selectedSamples (enableCursors true s) = selectedSamples s.
Proof.
  apply (proj1 enableCursors_selection
           (exampleView 1000 64 1 10 100 (Qt.mkScrollBar 0 424 0 1 10)
              (mkRange 0 640) (mkRange 0 0) (mkRange 0 0)) 0 0 10 100).
  - reflexivity.
  - unfold INT_MIN, INT_MAX. simpl. lia.
  - unfold INT_MAX. simpl. lia.
  - unfold INT_MAX. simpl. lia.
Defined.

(** ** Scroll bars stay well formed *)

Lemma scrollbar_ok_value sb : scrollbar_ok sb -> is_int (Qt.value sb).
Proof. unfold scrollbar_ok, is_int. lia. Qed.

Lemma setValue_ok v sb : scrollbar_ok sb -> scrollbar_ok (Qt.setValue v sb).
Proof.
  unfold scrollbar_ok, is_int, Qt.setValue, Qt.bound. cbn. lia.
Qed.

Lemma setMaximum_ok hi sb :
  is_int hi -> scrollbar_ok sb -> scrollbar_ok (Qt.setMaximum hi sb).
Proof.
  unfold scrollbar_ok, is_int, Qt.setMaximum, Qt.setRange. cbn.
  intros Hhi (Hlo & Hup & Hv).
  destruct (Z.eqb_spec (Qt.minimum sb) (Z.min (Qt.minimum sb) hi)),
           (Z.eqb_spec (Qt.maximum sb)
                       (Z.max (Z.min (Qt.minimum sb) hi) hi));
    cbn; unfold Qt.bound; cbn; lia.
Qed.

Lemma setValue_inside v sb :
  Qt.minimum sb <= v <= Qt.maximum sb -> Qt.value (Qt.setValue v sb) = v.
Proof. unfold Qt.setValue, Qt.bound. cbn. lia. Qed.

Lemma updateView_scrollbar_ok reCenter s spl s' :
  scrollbar_ok (horizontalScrollBar s) ->
  samplesPerLine s = Some spl -> 1 <= spl ->
  updateView reCenter s = Some s' ->
  scrollbar_ok (horizontalScrollBar s').
Proof.
  intros Hsb Hspl Hpos Hrun.
  destruct (updateView_runs reCenter s spl Hspl Hpos)
    as (s2 & Hrun2 & _ & Hbar & _).
  rewrite Hrun in Hrun2. injection Hrun2 as <-. rewrite Hbar.
  apply setMaximum_ok; [apply wrap32_is_int|].
  destruct reCenter; [now apply setValue_ok | assumption].
Qed.

(** ** Recentering *)

(** Halving the change of the view length moves the middle column by at
    most one column's worth of samples. *)
Lemma recenter_midpoint w o n :
  1 <= n ->
  Z.abs ((w * o - w * n) ÷ 2 + (w ÷ 2) * n - (w * o) ÷ 2) <= n.
Proof.
  intros Hn.
  pose proof (Z.quot_rem' (w * o - w * n) 2) as Hd.
  pose proof (Z.rem_bound_abs (w * o - w * n) 2 ltac:(lia)) as Hdr.
  pose proof (Z.quot_rem' (w * o) 2) as Hc.
  pose proof (Z.rem_bound_abs (w * o) 2 ltac:(lia)) as Hcr.
  pose proof (Z.quot_rem' w 2) as Hw.
  pose proof (Z.rem_bound_abs w 2 ltac:(lia)) as Hwr.
  assert (Hcases : Z.rem w 2 = -1 \/ Z.rem w 2 = 0 \/ Z.rem w 2 = 1) by lia.
  assert (Hwn : w * n = 2 * ((w ÷ 2) * n) + Z.rem w 2 * n) by nia.
  destruct Hcases as [E | [E | E]]; rewrite E in Hwn; lia.
Qed.

(** C3 (amended). [updateView(true)] hands the scroll position plus half
    the change of the view length to [setValue], which bounds it by the
    range in force, and only then recomputes the maximum. When that
    position lies inside the range in force and below the new maximum, it
    becomes the scroll position, and the sample at the middle column of the
    viewport is within one column's worth of samples of the old centre. *)
Theorem updateView_recenter s spl oldSpl :
  valid s -> scrollbar_ok (horizontalScrollBar s) -> 0 <= width s ->
  samplesPerLine s = Some spl -> 1 <= spl -> is_int oldSpl ->
  viewRange s =
    mkRange (Qt.value (horizontalScrollBar s))
            (Qt.value (horizontalScrollBar s) + width s * oldSpl) ->
  let scroll := Qt.value (horizontalScrollBar s) in
  let target := scroll + (width s * oldSpl - width s * spl) ÷ 2 in
  exists s',
    updateView true s = Some s' /\
    horizontalScrollBar s' =
      Qt.setMaximum (Qt.maximum (horizontalScrollBar s'))
        (Qt.setValue (wrap32 target) (horizontalScrollBar s)) /\
    (Qt.minimum (horizontalScrollBar s) <= target
       <= Qt.maximum (horizontalScrollBar s) ->
     target <= Qt.maximum (horizontalScrollBar s') ->
     Qt.value (horizontalScrollBar s') = target /\
     Z.abs (columnToSample (Qt.value (horizontalScrollBar s')) spl
              (width s ÷ 2)
            - (scroll + (width s * oldSpl) ÷ 2)) <= spl).
Proof.
  intros (Hfft & _ & Hw & Hv & _) Hsb Hw0 Hspl Hpos Hold Hview scroll target.
  pose proof (samplesPerLine_is_int s spl Hfft Hspl) as Hs.
  destruct (updateView_runs true s spl Hspl Hpos)
    as (s' & Hrun & _ & Hbar & _).
  exists s'. split; [exact Hrun|].
  assert (Harg :
    wrap64 (scroll +
      wrap64 (Range.length wrap64 (viewRange s)
              - Range.length wrap64
                  (mkRange scroll (wrap64 (scroll + wrap64 (width s * spl)))))
      ÷ 2) = target).
  { rewrite Hview. unfold Range.length. cbn. fold scroll.
    rewrite (wrap64_id (width s * spl)) by now apply int_mul_is_off.
    rewrite (wrap64_id (scroll + width s * spl))
      by now apply int_add_mul_is_off.
    replace (scroll + width s * oldSpl - scroll) with (width s * oldSpl)
      by lia.
    replace (scroll + width s * spl - scroll) with (width s * spl) by lia.
    rewrite !(wrap64_id (width s * _)) by now apply int_mul_is_off.
    pose proof (Z.quot_rem' (width s * oldSpl - width s * spl) 2) as H.
    pose proof (Z.rem_bound_abs (width s * oldSpl - width s * spl) 2
                  ltac:(lia)) as Hr.
    assert (Hdiff : is_off (width s * oldSpl - width s * spl)).
    { revert Hw Hs Hold Hw0 Hpos.
      unfold_ranges. nia. }
    rewrite (wrap64_id _ Hdiff). apply wrap64_id.
    revert Hdiff Hv H Hr. fold scroll.
    unfold_ranges. lia. }
  fold scroll in Hbar. rewrite Harg in Hbar.
  split.
  { rewrite Hbar at 2. now rewrite setMaximum_maximum. }
  intros Hin Hnew.
  assert (Hval : Qt.value (horizontalScrollBar s') = target).
  { rewrite Hbar in Hnew |- *. rewrite setMaximum_maximum in Hnew.
    destruct Hsb as (Hlo & Hup & _).
    assert (Ht : is_int target) by (unfold is_int in *; lia).
    rewrite (wrap32_id _ Ht).
    rewrite setMaximum_value; rewrite ?setValue_inside by assumption;
      cbn; unfold Qt.bound; lia. }
  split; [exact Hval|].
  rewrite Hval.
  destruct Hsb as (Hlo & Hup & _).
  rewrite columnToSample_exact.
  - pose proof (recenter_midpoint (width s) oldSpl spl Hpos).
    subst target. lia.
  - unfold is_int in *; lia.
  - assumption.
  - pose proof (quot_abs_le (width s) 2 ltac:(lia)).
    unfold is_int, INT_MIN, INT_MAX in *. lia.
Qed.

(** Zooming in from 64 to 32 samples per column at scroll position 1000:
    the scroll position becomes 1160 and the middle column still shows
    sample 1320. *)
Lemma updateView_recenter_witness :
  exists s',
    updateView true
      (exampleView 100000 32 1 10 100 (Qt.mkScrollBar 0 99424 1000 1 10)
         (mkRange 1000 1640) (mkRange 0 0) (mkRange 0 0)) = Some s' /\
    Qt.value (horizontalScrollBar s') = 1160 /\
    Z.abs (columnToSample (Qt.value (horizontalScrollBar s')) 32 5
           - 1320) <= 32.
Proof.
  destruct (updateView_recenter
    (exampleView 100000 32 1 10 100 (Qt.mkScrollBar 0 99424 1000 1 10)
       (mkRange 1000 1640) (mkRange 0 0) (mkRange 0 0)) 32 64)
    as (s' & Hrun & Hbar & Hin).
  - unfold valid, is_int, INT_MIN, INT_MAX. simpl. lia.
  - unfold scrollbar_ok, is_int, INT_MIN, INT_MAX. simpl. lia.
  - simpl. lia.
  - reflexivity.
  - lia.
  - unfold is_int, INT_MIN, INT_MAX. simpl. lia.
  - reflexivity.
  - exists s'. split; [exact Hrun|].
    vm_compute in Hrun. injection Hrun as <-.
    apply Hin; simpl; lia.
Defined.

(** The claim as the specification words it: after [updateView(true)] the
    scroll position has moved by half the change of the view length and the
    middle column shows the old centre within one column's worth of
    samples. Zooming out from 64 to 128 samples per column at scroll
    position 0 refutes it: the scroll bar keeps the position at its
    minimum, and the middle column moves from sample 320 to sample 640. *)
Lemma updateView_recenter_counterexample :
  let s := exampleView 100000 128 1 10 100 (Qt.mkScrollBar 0 99424 0 1 10)
             (mkRange 0 640) (mkRange 0 0) (mkRange 0 0) in
  exists s',
    updateView true s = Some s' /\
    Qt.value (horizontalScrollBar s')
      <> Qt.value (horizontalScrollBar s)
         + (Range.length wrap64 (viewRange s)
            - Range.length wrap64 (viewRange s')) ÷ 2 /\
    ~ Z.abs (columnToSample (Qt.value (horizontalScrollBar s')) 128
               (width s ÷ 2)
             - (minimum (viewRange s)
                + Range.length wrap64 (viewRange s) ÷ 2)) <= 128.
Proof.
  cbv zeta. eexists. split; [reflexivity|].
  split; vm_compute; intro H; [discriminate H | now apply H].
Qed.

(** ** The selection round trip *)

Lemma quot_round_trip a v spl :
  1 <= spl -> Z.abs (v + (a - v) ÷ spl * spl - a) < spl.
Proof.
  intros Hpos.
  pose proof (Z.quot_rem' (a - v) spl) as Hq.
  pose proof (Z.rem_bound_abs (a - v) spl ltac:(lia)) as Hr.
  lia.
Qed.

Lemma column_fits_is_off a v spl :
  is_int v -> is_int spl -> 1 <= spl -> is_int ((a - v) ÷ spl) ->
  is_off (a - v).
Proof.
  intros Hv Hs Hpos Hq.
  pose proof (Z.quot_rem' (a - v) spl) as Hqr.
  pose proof (Z.rem_bound_abs (a - v) spl ltac:(lia)) as Hr.
  revert Hv Hs Hq.
  unfold_ranges. nia.
Qed.

(** C4 (amended). [updateView] turns the absolute selection into cursor
    columns and [cursorsMoved], at the same scroll position and samples per
    column, turns them back: whenever both columns fit the overlay's [int],
    each end of the selection comes back less than one column's worth of
    samples away from where it was. *)
Theorem selection_round_trip reCenter s spl :
  valid s -> scrollbar_ok (horizontalScrollBar s) ->
  samplesPerLine s = Some spl -> 1 <= spl ->
  exists s1,
    updateView reCenter s = Some s1 /\
    (is_int ((minimum (selectedSamples s)
              - Qt.value (horizontalScrollBar s1)) ÷ spl) ->
     is_int ((maximum (selectedSamples s)
              - Qt.value (horizontalScrollBar s1)) ÷ spl) ->
     exists s2,
       cursorsMoved s1 = Some s2 /\
       Z.abs (minimum (selectedSamples s2) - minimum (selectedSamples s))
         < spl /\
       Z.abs (maximum (selectedSamples s2) - maximum (selectedSamples s))
         < spl).
Proof.
  intros Hvalid Hsb Hspl Hpos.
  destruct (updateView_runs reCenter s spl Hspl Hpos)
    as (s1 & Hrun & _ & _ & Hpix & _ & Hfft & Hzoom & Hw & _).
  exists s1. split; [exact Hrun|]. intros Hlo Hhi.
  pose proof (updateView_scrollbar_ok _ _ _ _ Hsb Hspl Hpos Hrun) as Hsb1.
  pose proof (scrollbar_ok_value _ Hsb1) as Hv1.
  destruct Hvalid as (Vfft & Vzoom & Vw & _).
  pose proof (samplesPerLine_is_int s spl Vfft Hspl) as Hs.
  assert (Hspl1 : samplesPerLine s1 = Some spl).
  { unfold samplesPerLine in *. now rewrite Hfft, Hzoom. }
  assert (Hvalid1 : valid s1).
  { unfold valid. rewrite Hfft, Hzoom, Hw, Hpix. cbn.
    repeat match goal with |- _ /\ _ => split end;
      try assumption; apply wrap32_is_int. }
  destruct (cursorsMoved_runs s1 spl Hvalid1 Hspl1) as (s2 & Hrun2 & Hsel & _).
  exists s2. split; [exact Hrun2|].
  rewrite Hsel, Hpix. cbn.
  rewrite !wrap64_id by (eapply column_fits_is_off; eassumption).
  rewrite !wrap32_id by assumption.
  split; apply quot_round_trip; assumption.
Qed.

(** A selection [100, 300) seen from scroll position 10 at 64 samples per
    column comes back as [74, 266). *)
Lemma selection_round_trip_witness :
  exists s1 s2,
    updateView false
      (exampleView 1000 64 1 10 100 (Qt.mkScrollBar 0 424 10 1 10)
         (mkRange 10 650) (mkRange 100 300) (mkRange 0 0)) = Some s1 /\
    cursorsMoved s1 = Some s2 /\
    selectedSamples s2 = mkRange 74 266 /\
    Z.abs (minimum (selectedSamples s2) - 100) < 64 /\
    Z.abs (maximum (selectedSamples s2) - 300) < 64.
Proof.
  destruct (selection_round_trip false
    (exampleView 1000 64 1 10 100 (Qt.mkScrollBar 0 424 10 1 10)
       (mkRange 10 650) (mkRange 100 300) (mkRange 0 0)) 64)
    as (s1 & Hrun & Hback).
  - unfold valid, is_int, INT_MIN, INT_MAX. simpl. lia.
  - unfold scrollbar_ok, is_int, INT_MIN, INT_MAX. simpl. lia.
  - reflexivity.
  - lia.
  - exists s1.
    vm_compute in Hrun. injection Hrun as <-.
    destruct Hback as (s2 & Hrun2 & Hlo & Hhi).
    + split; vm_compute; discriminate.
    + split; vm_compute; discriminate.
    + exists s2. split; [reflexivity|]. split; [exact Hrun2|].
      vm_compute in Hrun2. injection Hrun2 as <-.
      split; [reflexivity|]. split; [exact Hlo | exact Hhi].
Defined.

(** The claim as the specification words it, for every absolute selection:
    a selection 2^32 samples away from the scroll position at one sample
    per column gets column 0 (the column is cut to an [int]) and comes back
    as [0, 5). *)
Lemma selection_round_trip_counterexample :
  let s := exampleView 1000 1 1 10 100 (Qt.mkScrollBar 0 991 0 1 10)
             (mkRange 0 10) (mkRange 4294967296 4294967301) (mkRange 0 0) in
  exists s1 s2,
    updateView false s = Some s1 /\
    cursorsMoved s1 = Some s2 /\
    selectedSamples s2 = mkRange 0 5 /\
    ~ Z.abs (minimum (selectedSamples s2) - minimum (selectedSamples s))
        <= 1.
Proof.
  cbv zeta. do 2 eexists.
  split; [reflexivity|]. split; [reflexivity|]. split; [reflexivity|].
  vm_compute. intro H. now apply H.
Qed.

(** ** Setting the FFT size and the zoom level *)

Lemma quot_ge_1 size zoom : 1 <= zoom <= size -> 1 <= size ÷ zoom.
Proof. intros H. apply Z.quot_le_lower_bound; lia. Qed.

(** C8 (amended). [setFFTAndZoom] checks nothing. With a zoom level of at
    least one the samples per column are computed without dividing by zero,
    and with the FFT size at least the zoom level the whole call goes
    through and leaves at least one sample per column; a zoom level of zero
    makes it divide by zero. *)
Theorem setFFTAndZoom_runs s size zoom :
  (1 <= zoom <= size ->
   exists s',
     setFFTAndZoom size zoom s = Some s' /\
     fftSize s' = size /\ zoomLevel s' = zoom /\
     samplesPerLine s' = Some (size ÷ zoom) /\
     1 <= size ÷ zoom) /\
  (1 <= zoom ->
   forall sp, samplesPerLine (with_zoom s size zoom sp) = Some (size ÷ zoom)) /\
  setFFTAndZoom size 0 s = None.
Proof.
  split; [|split].
  - intros Hz.
    pose proof (quot_ge_1 size zoom Hz) as Hq.
    unfold setFFTAndZoom. cbn [zoomLevel with_zoom].
    unfold int_div. rewrite !cdiv_pos by lia. cbn [bind].
    match goal with |- context [updateView true ?x] => set (s2 := x) end.
    assert (Hspl : samplesPerLine s2 = Some (size ÷ zoom)).
    { unfold samplesPerLine, int_div. cbn. apply cdiv_pos. lia. }
    destruct (updateView_runs true s2 _ Hspl Hq)
      as (s' & Hrun & _ & _ & _ & _ & Hfft & Hzoom & _).
    exists s'. split; [exact Hrun|].
    split; [exact Hfft|]. split; [exact Hzoom|].
    split; [|exact Hq].
    unfold samplesPerLine. rewrite Hfft, Hzoom. exact Hspl.
  - intros Hz sp. unfold samplesPerLine, int_div. cbn. apply cdiv_pos. lia.
  - reflexivity.
Qed.

Lemma setFFTAndZoom_runs_witness :
  exists s',
    setFFTAndZoom 64 2
      (exampleView 1000 512 1 10 100 (Qt.mkScrollBar 0 424 0 1 10)
         (mkRange 0 5120) (mkRange 0 0) (mkRange 0 0)) = Some s' /\
    fftSize s' = 64 /\ zoomLevel s' = 2 /\
    samplesPerLine s' = Some (64 ÷ 2) /\
    1 <= 64 ÷ 2.
Proof.
  apply (proj1 (setFFTAndZoom_runs
           (exampleView 1000 512 1 10 100 (Qt.mkScrollBar 0 424 0 1 10)
              (mkRange 0 5120) (mkRange 0 0) (mkRange 0 0)) 64 2)).
  lia.
Defined.

(** The claim as the specification words it: a zoom level or an FFT size
    that is not positive makes the call fail, and positive ones never reach
    a failure. A zoom level of -1 is taken as it is, leaving -64 samples per
    column; FFT size 1 at zoom level 2 leaves zero samples per column, by
    which [updateView] then divides. *)
Lemma setFFTAndZoom_counterexample :
  let s := exampleView 1000 512 1 10 100 (Qt.mkScrollBar 0 424 0 1 10)
             (mkRange 0 5120) (mkRange 0 0) (mkRange 0 0) in
  (exists s', setFFTAndZoom 64 (-1) s = Some s' /\
              samplesPerLine s' = Some (-64)) /\
  setFFTAndZoom 1 2 s = None.
Proof.
  cbv zeta. split; [eexists; split; reflexivity | reflexivity].
Qed.

(** ** The number of segments *)

Lemma cursorsMoved_frame s s' :
  cursorsMoved s = Some s' ->
  viewRange s' = viewRange s /\
  fftSize s' = fftSize s /\ zoomLevel s' = zoomLevel s /\
  horizontalScrollBar s' = horizontalScrollBar s /\
  verticalScrollBar s' = verticalScrollBar s /\
  cursors s' = cursors s /\
  cursorsEnabled s' = cursorsEnabled s /\
  plots s' = plots s.
Proof.
  unfold cursorsMoved. destruct (samplesPerLine s); [|discriminate].
  cbn [bind]. intros [= <-]. cbn. repeat split.
Qed.




(** ** Routing of pointer events *)

Lemma localEvent_wrap kbd m a c :
  localEvent kbd m (wrap32 a + c) = localEvent kbd m (a + c).
Proof.
  unfold localEvent. f_equal.
  replace (Qt.posY m - (wrap32 a + c)) with (Qt.posY m - c - wrap32 a) by lia.
  rewrite wrap32_sub_r. f_equal. lia.
Qed.

Lemma offerToPlots_routed kbd m ps :
  forall plotY first,
  exists n,
    routed (Qt.evType m)
      (fun i => localEvent kbd m (plotY + cumulativeHeight ps i))
      ps first
      (fst (offerToPlots kbd m plotY first ps))
      (snd (offerToPlots kbd m plotY first ps)) n.
Proof.
  induction ps as [|p rest IH]; intros plotY first.
  - exists 0%nat. unfold routed. cbn.
    repeat split; try lia.
    right. repeat split. intros [|i] q; discriminate.
  - cbn [offerToPlots]. fold (localEvent kbd m plotY).
    assert (Hhead :
      localEvent kbd m (plotY + cumulativeHeight (p :: rest) 0)
      = localEvent kbd m plotY).
    { unfold cumulativeHeight. cbn. now rewrite Z.add_0_r. }
    assert (Htail : forall i,
      localEvent kbd m (plotY + cumulativeHeight (p :: rest) (S i))
      = localEvent kbd m (wrap32 (plotY + height p) + cumulativeHeight rest i)).
    { intros i. rewrite localEvent_wrap. unfold cumulativeHeight. cbn.
      f_equal. lia. }
    destruct (mouseEvent p (Qt.evType m) (localEvent kbd m plotY)) eqn:Hp.
    + exists 1%nat. unfold routed. cbn [fst snd length seq map].
      rewrite Hhead, Nat.add_0_r.
      repeat split; try lia.
      left. split; [reflexivity|]. exists 0%nat, p.
      rewrite Hhead. repeat split. exact Hp.
    + destruct (IH (wrap32 (plotY + height p)) (S first))
        as (n & Hn & Hoffers & Hbefore & Hlast).
      destruct (offerToPlots kbd m (wrap32 (plotY + height p)) (S first) rest)
        as [result offers] eqn:Hrest.
      cbn [fst snd] in *.
      exists (S n). unfold routed. cbn [fst snd length].
      split; [lia|]. split; [|split].
      * cbn [seq map]. rewrite Hhead, Nat.add_0_r. f_equal.
        rewrite <- seq_shift, map_map, Hoffers.
        apply map_ext. intros i. rewrite Htail. do 2 f_equal. lia.
      * intros [|i] q Hi Hq.
        -- cbn in Hq. injection Hq as <-. now rewrite Hhead.
        -- rewrite Htail. apply Hbefore; [lia | exact Hq].
      * destruct Hlast as [(Hr & k & q & -> & Hq & Hc) | (Hr & -> & Hall)].
        -- left. split; [exact Hr|]. exists (S k), q.
           rewrite Htail. repeat split; assumption.
        -- right. repeat split; [exact Hr|].
           intros [|i] q Hq.
           ++ cbn in Hq. injection Hq as <-. now rewrite Hhead.
           ++ rewrite Htail. now apply Hall.
Qed.

(** C6 (amended). A press, move or release is offered to the overlay
    first. When the overlay declines, the plots are asked in stacking order
    and the first to consume the event ends the routing; plot [i] sees the
    vertical coordinate less its own top edge, that is less the heights of
    the plots before it and plus the vertical scroll position. *)
Theorem eventFilter_routing cursorsMouseEvent kbd m s :
  isPointerEvent (Qt.evType m) = true ->
  let run := eventFilter cursorsMouseEvent kbd (Qt.EvMouse m) s in
  snd run = s /\
  (cursorsMouseEvent (cursors s) (Qt.evType m) m = true ->
   fst (fst run) = true /\ snd (fst run) = [(ToOverlay, m)]) /\
  (cursorsMouseEvent (cursors s) (Qt.evType m) m = false ->
   exists offers n,
     snd (fst run) = (ToOverlay, m) :: offers /\
     routed (Qt.evType m) (fun i => localEvent kbd m (plotTop s i))
       (plots s) 0 (fst (fst run)) offers n).
Proof.
  intros Hptr run. subst run. unfold eventFilter. rewrite Hptr.
  destruct (cursorsMouseEvent (cursors s) (Qt.evType m) m).
  - cbn. repeat split. discriminate.
  - destruct (offerToPlots_routed kbd m (plots s)
                (wrap32 (- Qt.value (verticalScrollBar s))) 0%nat)
      as (n & Hrouted).
    destruct (offerToPlots kbd m _ 0%nat (plots s)) as [result offers].
    cbn [fst snd] in *.
    split; [reflexivity|]. split; [discriminate|].
    intros _. exists offers, n. split; [reflexivity|].
    assert (Hev : forall i,
      localEvent kbd m (wrap32 (- Qt.value (verticalScrollBar s))
                        + cumulativeHeight (plots s) i)
      = localEvent kbd m (plotTop s i)).
    { intros i. rewrite localEvent_wrap. unfold plotTop. f_equal. lia. }
    destruct Hrouted as (Hn & Hoffers & Hbefore & Hlast).
    unfold routed. split; [exact Hn|]. split; [|split].
    + rewrite Hoffers. apply map_ext. intros i. now rewrite Hev.
    + intros i p Hi Hp. rewrite <- Hev. now apply Hbefore.
    + destruct Hlast as [(Hr & k & q & Hk & Hq & Hc) | (Hr & Hlen & Hall)].
      * left. split; [exact Hr|]. exists k, q. rewrite <- Hev. auto.
      * right. repeat split; try assumption.
        intros i p Hp. rewrite <- Hev. now apply Hall.
Qed.

(** A press at height 120 over a plot of height 100 that declines and one
    of height 50 that consumes, the view scrolled down by 10: the first
    plot is offered height 130, the second height 30. *)
Lemma eventFilter_routing_witness :
  let s := stackedView [mkPlot 100 declines; mkPlot 50 consumes] 10 in
  let run := eventFilter (fun _ => declines) 0
               (Qt.EvMouse (pressAt 5 120)) s in
  exists offers n,
    snd (fst run) = (ToOverlay, pressAt 5 120) :: offers /\
    routed Qt.MouseButtonPress
      (fun i => localEvent 0 (pressAt 5 120) (plotTop s i))
      (plots s) 0 (fst (fst run)) offers n /\
    offers = [(ToPlot 0, pressAt 5 130); (ToPlot 1, pressAt 5 30)] /\
    fst (fst run) = true.
Proof.
  cbv zeta.
  destruct (eventFilter_routing (fun _ => declines) 0 (pressAt 5 120)
              (stackedView [mkPlot 100 declines; mkPlot 50 consumes] 10)
              eq_refl) as (_ & _ & H).
  destruct (H eq_refl) as (offers & n & Hoffers & Hrouted).
  exists offers, n. split; [exact Hoffers|]. split; [exact Hrouted|].
  vm_compute in Hoffers. injection Hoffers as <-.
  split; reflexivity.
Defined.

(** The claim as the specification words it: the plot is offered the
    vertical coordinate less the cumulative height and less the vertical
    scroll position. With the view scrolled down by 10, a press at height
    50 reaches the first plot at height 60, not 40. *)
Lemma eventFilter_routing_counterexample :
  let s := stackedView [mkPlot 100 consumes] 10 in
  exists local,
    snd (fst (eventFilter (fun _ => declines) 0
                (Qt.EvMouse (pressAt 5 50)) s))
      = [(ToOverlay, pressAt 5 50); (ToPlot 0, local)] /\
    Qt.posY local = 60 /\
    Qt.posY local
      <> specLocalY 50 (cumulativeHeight (plots s) 0)
           (Qt.value (verticalScrollBar s)).
Proof.
  cbv zeta. eexists. split; [reflexivity|]. split; [reflexivity|].
  vm_compute. discriminate.
Qed.

(** * Further properties of the view *)

(** ** The height of the plots *)

Lemma wrap32_add_l a b : wrap32 (wrap32 a + b) = wrap32 (a + b).
Proof.
  replace (wrap32 a + b) with (b - - wrap32 a) by lia.
  replace (- wrap32 a) with (0 - wrap32 a) by lia.
  unfold wrap32, wrap.
  change (2 ^ (32 - 1)) with 2147483648.
  change (2 ^ 32) with 4294967296.
  f_equal.
  replace (b - (0 - ((a + 2147483648) mod 4294967296 - 2147483648))
           + 2147483648)
    with ((a + 2147483648) mod 4294967296 + b) by lia.
  rewrite Zplus_mod_idemp_l. f_equal. lia.
Qed.

Lemma cumulativeHeight_cons p ps i :
  cumulativeHeight (p :: ps) (S i) = height p + cumulativeHeight ps i.
Proof. reflexivity. Qed.

Lemma cumulativeHeight_app ps qs i :
  (i <= length ps)%nat ->
  cumulativeHeight (ps ++ qs) i = cumulativeHeight ps i.
Proof.
  intros Hi. unfold cumulativeHeight. rewrite firstn_app.
  replace (i - length ps)%nat with 0%nat by lia.
  cbn. now rewrite app_nil_r.
Qed.

Lemma cumulativeHeight_snoc ps p :
  cumulativeHeight (ps ++ [p]) (length (ps ++ [p]))
  = cumulativeHeight ps (length ps) + height p.
Proof.
  unfold cumulativeHeight. rewrite !firstn_all, map_app, fold_right_app.
  cbn. induction ps as [|q ps IH]; cbn; lia.
Qed.

Lemma fold_heights_wrap ps : forall a,
  fold_left (fun acc p => wrap32 (acc + height p)) ps (wrap32 a)
  = wrap32 (a + cumulativeHeight ps (length ps)).
Proof.
  induction ps as [|p ps IH]; intros a.
  - cbn. unfold cumulativeHeight. cbn. now rewrite Z.add_0_r.
  - cbn [fold_left length]. rewrite wrap32_add_l, IH.
    rewrite cumulativeHeight_cons. f_equal. lia.
Qed.

Lemma plotsHeight_wrap s :
  plotsHeight s = wrap32 (cumulativeHeight (plots s) (length (plots s))).
Proof.
  unfold plotsHeight. change 0 with (wrap32 0) at 1.
  now rewrite fold_heights_wrap.
Qed.

(** X1. [plotsHeight()] is the sum of the plot heights cut to an [int]: it
    is the plain sum whenever that sum is an [int], whatever the partial
    sums were. *)
Theorem plotsHeight_sum s :
  plotsHeight s = wrap32 (cumulativeHeight (plots s) (length (plots s))) /\
  (is_int (cumulativeHeight (plots s) (length (plots s))) ->
   plotsHeight s = cumulativeHeight (plots s) (length (plots s))).
Proof.
  pose proof (plotsHeight_wrap s) as H.
  split; [exact H|]. intros Hfit. rewrite H. now apply wrap32_id.
Qed.

Lemma plotsHeight_sum_witness :
  plotsHeight (stackedView [mkPlot 100 declines; mkPlot 50 consumes] 10)
  = 150.
Proof.
  rewrite (proj2 (plotsHeight_sum
            (stackedView [mkPlot 100 declines; mkPlot 50 consumes] 10))).
  - reflexivity.
  - split; vm_compute; discriminate.
Defined.

(** X2. [addPlot] puts the plot below the plots already there: these keep
    their index and their place on the screen, the new plot starts where
    they end, and [plotsHeight()] grows by its height. *)
Theorem addPlot_below plot s :
  plotsHeight (addPlot plot s) = wrap32 (plotsHeight s + height plot) /\
  nth_error (plots (addPlot plot s)) (length (plots s)) = Some plot /\
  (forall i, (i < length (plots s))%nat ->
     nth_error (plots (addPlot plot s)) i = nth_error (plots s) i) /\
  (forall i, (i <= length (plots s))%nat ->
     plotTop (addPlot plot s) i = plotTop s i) /\
  plotTop (addPlot plot s) (S (length (plots s)))
    = plotTop s (length (plots s)) + height plot.
Proof.
  split; [|split; [|split; [|split]]].
  - rewrite (plotsHeight_wrap (addPlot plot s)), (plotsHeight_wrap s).
    cbn [plots addPlot]. rewrite cumulativeHeight_snoc.
    now rewrite wrap32_add_l.
  - cbn [plots addPlot]. rewrite nth_error_app2 by lia.
    now rewrite Nat.sub_diag.
  - intros i Hi. cbn [plots addPlot]. now rewrite nth_error_app1.
  - intros i Hi. unfold plotTop. cbn [plots addPlot verticalScrollBar].
    now rewrite cumulativeHeight_app.
  - unfold plotTop. cbn [plots addPlot verticalScrollBar].
    pose proof (cumulativeHeight_snoc (plots s) plot) as H.
    rewrite length_app in H. cbn [length] in H.
    rewrite Nat.add_1_r in H. rewrite H. lia.
Qed.

Lemma addPlot_below_witness :
  let s := stackedView [mkPlot 100 declines; mkPlot 50 consumes] 10 in
  plotsHeight (addPlot (mkPlot 30 consumes) s) = 180 /\
  plotTop (addPlot (mkPlot 30 consumes) s) 1 = 90 /\
  plotTop (addPlot (mkPlot 30 consumes) s) 3 = 170.
Proof.
  cbv zeta.
  destruct (addPlot_below (mkPlot 30 consumes)
              (stackedView [mkPlot 100 declines; mkPlot 50 consumes] 10))
    as (Hh & _ & _ & Htop & Hnew).
  split; [rewrite Hh; reflexivity|].
  split; [rewrite (Htop 1%nat); [reflexivity | simpl; lia]|].
  exact Hnew.
Defined.

(** ** More on the routing of events *)

Lemma localEvent_plotTop kbd m s i :
  localEvent kbd m (wrap32 (- Qt.value (verticalScrollBar s))
                    + cumulativeHeight (plots s) i)
  = localEvent kbd m (plotTop s i).
Proof. rewrite localEvent_wrap. unfold plotTop. f_equal. lia. Qed.

(** X3. A press, move or release is reported as consumed exactly when the
    overlay consumes it or some plot consumes the event translated to its
    own strip. *)
Theorem eventFilter_consumed_iff cursorsMouseEvent kbd m s :
  isPointerEvent (Qt.evType m) = true ->
  fst (fst (eventFilter cursorsMouseEvent kbd (Qt.EvMouse m) s)) = true <->
  cursorsMouseEvent (cursors s) (Qt.evType m) m = true \/
  exists i p, nth_error (plots s) i = Some p /\
              mouseEvent p (Qt.evType m) (localEvent kbd m (plotTop s i))
              = true.
Proof.
  intros Hptr. unfold eventFilter. rewrite Hptr.
  destruct (cursorsMouseEvent (cursors s) (Qt.evType m) m).
  - cbn. split; auto.
  - destruct (offerToPlots_routed kbd m (plots s)
                (wrap32 (- Qt.value (verticalScrollBar s))) 0%nat)
      as (n & _ & _ & _ & Hlast).
    destruct (offerToPlots kbd m _ 0%nat (plots s)) as [result offers].
    cbn [fst snd] in *. split.
    + intros ->. right.
      destruct Hlast as [(_ & k & q & _ & Hq & Hc) | (Hr & _)];
        [|discriminate].
      exists k, q. now rewrite <- localEvent_plotTop.
    + intros [H | (i & p & Hp & Hc)]; [discriminate|].
      destruct Hlast as [(Hr & _) | (_ & _ & Hall)]; [exact Hr|].
      rewrite <- localEvent_plotTop in Hc.
      rewrite (Hall i p Hp) in Hc. discriminate.
Qed.

Lemma eventFilter_consumed_iff_witness :
  fst (fst (eventFilter (fun _ => declines) 0 (Qt.EvMouse (pressAt 5 120))
              (stackedView [mkPlot 100 declines; mkPlot 50 consumes] 10)))
  = true.
Proof.
  apply (eventFilter_consumed_iff (fun _ => declines) 0 (pressAt 5 120)
           (stackedView [mkPlot 100 declines; mkPlot 50 consumes] 10)
           eq_refl).
  right. exists 1%nat, (mkPlot 50 consumes). split; reflexivity.
Defined.

Lemma offerToPlots_app_consumed kbd m qs ps :
  forall plotY first,
  fst (offerToPlots kbd m plotY first ps) = true ->
  offerToPlots kbd m plotY first (ps ++ qs)
  = offerToPlots kbd m plotY first ps.
Proof.
  induction ps as [|p ps IH]; intros plotY first Hc.
  - discriminate Hc.
  - cbn [offerToPlots app] in *.
    destruct (mouseEvent p (Qt.evType m) _); [reflexivity|].
    destruct (offerToPlots kbd m (wrap32 (plotY + height p)) (S first) ps)
      as [result offers] eqn:Hrest.
    cbn [fst] in Hc. subst result.
    rewrite IH by now rewrite Hrest.
    now rewrite Hrest.
Qed.

(** X4. A plot added below the others never takes an event from them: an
    event that was consumed before the plot was added is routed in the very
    same way afterwards. *)
Theorem eventFilter_addPlot cursorsMouseEvent kbd event plot s :
  fst (fst (eventFilter cursorsMouseEvent kbd event s)) = true ->
  fst (eventFilter cursorsMouseEvent kbd event (addPlot plot s))
  = fst (eventFilter cursorsMouseEvent kbd event s).
Proof.
  destruct event as [m | dy |]; cbn [eventFilter].
  - change (cursors (addPlot plot s)) with (cursors s).
    change (verticalScrollBar (addPlot plot s)) with (verticalScrollBar s).
    change (plots (addPlot plot s)) with (plots s ++ [plot]).
    destruct (isPointerEvent (Qt.evType m)); [|discriminate].
    destruct (cursorsMouseEvent (cursors s) (Qt.evType m) m);
      [reflexivity|].
    destruct (offerToPlots kbd m _ 0%nat (plots s))
      as [result offers] eqn:Hrest.
    cbn [fst]. intros ->.
    rewrite (offerToPlots_app_consumed kbd m [plot])
      by now rewrite Hrest.
    now rewrite Hrest.
  - destruct (Z.land kbd Qt.ControlModifier =? 0); [discriminate|].
    destruct (0 <? dy), (dy <? 0); reflexivity.
  - discriminate.
Qed.

Lemma eventFilter_addPlot_witness :
  fst (eventFilter (fun _ => declines) 0 (Qt.EvMouse (pressAt 5 120))
         (addPlot (mkPlot 30 consumes)
            (stackedView [mkPlot 100 declines; mkPlot 50 consumes] 10)))
  = (true, [(ToOverlay, pressAt 5 120); (ToPlot 0, pressAt 5 130);
            (ToPlot 1, pressAt 5 30)]).
Proof.
  rewrite (eventFilter_addPlot (fun _ => declines) 0
             (Qt.EvMouse (pressAt 5 120)) (mkPlot 30 consumes)
             (stackedView [mkPlot 100 declines; mkPlot 50 consumes] 10));
    reflexivity.
Defined.

(** X5. A wheel event never reaches the overlay or a plot. With Control
    held it is consumed, and it emits [zoomIn] exactly when the wheel
    turned up, [zoomOut] exactly when it turned down and nothing when it
    did not turn; without Control it is passed on and nothing is emitted. *)
Theorem eventFilter_wheel cursorsMouseEvent kbd dy s :
  let run := eventFilter cursorsMouseEvent kbd (Qt.EvWheel dy) s in
  snd (fst run) = [] /\
  (fst (fst run) = true <-> Z.land kbd Qt.ControlModifier <> 0) /\
  (snd run = emit s zoomIn <->
   Z.land kbd Qt.ControlModifier <> 0 /\ 0 < dy) /\
  (snd run = emit s zoomOut <->
   Z.land kbd Qt.ControlModifier <> 0 /\ dy < 0) /\
  (snd run = s <-> Z.land kbd Qt.ControlModifier = 0 \/ dy = 0).
Proof.
  assert (Hemit : forall sig, emit s sig <> s).
  { intros sig H. apply (f_equal emitted) in H. cbn in H.
    apply (f_equal (@length Signal)) in H. rewrite length_app in H.
    cbn in H. lia. }
  assert (Hdiff : emit s zoomIn <> emit s zoomOut).
  { intros H. apply (f_equal emitted) in H. cbn in H.
    apply app_inv_head in H. discriminate. }
  cbv zeta. unfold eventFilter.
  destruct (Z.eqb_spec (Z.land kbd Qt.ControlModifier) 0) as [E | E];
    [|destruct (Z.ltb_spec 0 dy); [|destruct (Z.ltb_spec dy 0)]];
    cbn [fst snd];
    repeat match goal with
           | |- _ /\ _ => split
           | |- _ <-> _ => split
           end;
    try reflexivity; try discriminate; try tauto; try lia;
    intros Hx;
    try (destruct Hx; lia);
    try (exfalso; first
           [ now apply Hemit in Hx
           | now apply Hdiff in Hx
           | symmetry in Hx; first
               [ now apply Hemit in Hx | now apply Hdiff in Hx ] ]);
    try tauto; try lia.
Qed.

(** X6. An event that reaches no hook leaves the view as it is apart from
    the signals the filter emits. A mouse event that is not a press, move or
    release (a double click), like any event that is neither a mouse nor a
    wheel event, is passed on without being offered to anyone and changes
    nothing; a wheel event is offered to no one either and adds at most one
    signal, [zoomIn] or [zoomOut], to an otherwise unchanged view. *)
Theorem eventFilter_frame cursorsMouseEvent kbd event s :
  let run := eventFilter cursorsMouseEvent kbd event s in
  (forall m, event = Qt.EvMouse m -> isPointerEvent (Qt.evType m) = false ->
             run = (false, [], s)) /\
  (event = Qt.EvOther -> run = (false, [], s)) /\
  (forall dy, event = Qt.EvWheel dy ->
     snd (fst run) = [] /\
     exists sigs,
       snd run
       = mkPlotView (mainSampleSource s) (fftSize s) (zoomLevel s)
           (viewRange s) (selectedSamples s) (cursorsEnabled s) (cursors s)
           (plots s) (spectrogramPlot s) (horizontalScrollBar s)
           (verticalScrollBar s) (width s) (viewport s) (emitted s ++ sigs) /\
       (sigs = [] \/ sigs = [zoomIn] \/ sigs = [zoomOut])).
Proof.
  assert (Hsame : s = mkPlotView (mainSampleSource s) (fftSize s)
            (zoomLevel s) (viewRange s) (selectedSamples s)
            (cursorsEnabled s) (cursors s) (plots s) (spectrogramPlot s)
            (horizontalScrollBar s) (verticalScrollBar s) (width s)
            (viewport s) (emitted s ++ [])).
  { rewrite app_nil_r. now destruct s. }
  cbv zeta. split; [|split].
  - intros m -> Hptr. cbn [eventFilter]. now rewrite Hptr.
  - intros ->. reflexivity.
  - intros dy ->. cbn [eventFilter].
    destruct (Z.land kbd Qt.ControlModifier =? 0);
      [split; [reflexivity|]; exists []; cbn [snd]; auto|].
    destruct (0 <? dy);
      [split; [reflexivity|]; exists [zoomIn]; cbn; auto|].
    destruct (dy <? 0);
      [split; [reflexivity|]; exists [zoomOut]; cbn; auto|].
    split; [reflexivity|]. exists []; cbn [snd]; auto.
Qed.

Lemma eventFilter_frame_witness :
  eventFilter (fun _ => consumes) 0
    (Qt.EvMouse (Qt.mkMouseEvent Qt.MouseButtonDblClick 5 20 1 1 0))
    (stackedView [mkPlot 100 consumes] 0)
  = (false, [], stackedView [mkPlot 100 consumes] 0).
Proof.
  apply (proj1 (eventFilter_frame (fun _ => consumes) 0
           (Qt.EvMouse (Qt.mkMouseEvent Qt.MouseButtonDblClick 5 20 1 1 0))
           (stackedView [mkPlot 100 consumes] 0))
           (Qt.mkMouseEvent Qt.MouseButtonDblClick 5 20 1 1 0));
    reflexivity.
Defined.

(** ** Painting *)

Lemma combine_map_S (A : Type) (l : list nat) : forall ps : list A,
  combine (map S l) ps = map (fun ip => (S (fst ip), snd ip)) (combine l ps).
Proof.
  induction l as [|i l IH]; intros [|p ps]; cbn; try reflexivity.
  now rewrite IH.
Qed.

Lemma PLOT_LAYER_closed paintFunc w range ps :
  forall y first,
  PLOT_LAYER paintFunc w range (wrap32 y) first ps
  = map (fun ip =>
           PlotPaint paintFunc (first + fst ip)
             (Qt.mkRect 0 (wrap32 (y + cumulativeHeight ps (fst ip))) w
                (height (snd ip)))
             range)
        (combine (seq 0 (length ps)) ps).
Proof.
  induction ps as [|p ps IH]; intros y first; [reflexivity|].
  cbn [PLOT_LAYER length seq combine map fst snd].
  f_equal.
  - unfold cumulativeHeight. cbn. now rewrite Z.add_0_r, Nat.add_0_r.
  - rewrite wrap32_add_l, IH, <- seq_shift.
    rewrite combine_map_S, map_map.
    apply map_ext. intros [i q]. cbn [fst snd].
    rewrite cumulativeHeight_cons, Z.add_assoc.
    now replace (first + S i)%nat with (S first + i)%nat by lia.
Qed.

Lemma PLOT_LAYER_layerCalls layer s :
  PLOT_LAYER layer (width s) (viewRange s)
    (wrap32 (- Qt.value (verticalScrollBar s))) 0%nat (plots s)
  = layerCalls layer s.
Proof.
  rewrite PLOT_LAYER_closed. unfold layerCalls, plotRect.
  apply map_ext. intros [i p]. cbn [fst snd]. unfold plotTop.
  do 3 f_equal. lia.
Qed.

(** X7. With a source, [paintEvent] fills the widget, then paints all plots
    through the back layer, all through the middle layer and all through
    the front layer, each time from top to bottom, and the overlay last,
    and only when the cursors are enabled. In every layer plot [i] gets
    the same strip: the width of the widget, its own height, starting at
    the heights of the plots above it less the vertical scroll position;
    and every call gets the current view range. Without a source nothing
    is painted. *)
Theorem paintEvent_layers widgetHeight s :
  paintEvent true widgetHeight s = [] /\
  paintEvent false widgetHeight s
  = FillBlack (Qt.mkRect 0 0 (width s) widgetHeight)
    :: layerCalls paintBack s ++ layerCalls paintMid s
    ++ layerCalls paintFront s
    ++ (if cursorsEnabled s
        then [CursorsPaintFront (Qt.mkRect 0 0 (width s) widgetHeight)
                (viewRange s)]
        else []).
Proof.
  split; [reflexivity|].
  unfold paintEvent. now rewrite !PLOT_LAYER_layerCalls.
Qed.

Lemma offerToPlots_offer kbd m s i ev :
  In (ToPlot i, ev)
     (snd (offerToPlots kbd m (wrap32 (- Qt.value (verticalScrollBar s)))
             0%nat (plots s))) ->
  ev = localEvent kbd m (plotTop s i).
Proof.
  destruct (offerToPlots_routed kbd m (plots s)
              (wrap32 (- Qt.value (verticalScrollBar s))) 0%nat)
    as (n & _ & Hoffers & _).
  rewrite Hoffers. intros Hin. apply in_map_iff in Hin.
  destruct Hin as (k & Hk & _). cbn in Hk. injection Hk as -> <-.
  apply localEvent_plotTop.
Qed.

Lemma combine_seq_nth (l : list Plot) : forall k first p,
  In ((first + k)%nat, p) (combine (seq first (length l)) l) ->
  nth_error l k = Some p.
Proof.
  induction l as [|q l IH]; intros k first p Hin; [destruct Hin|].
  cbn in Hin. destruct Hin as [Heq | Hin].
  - injection Heq as Hk ->. assert (k = 0)%nat as -> by lia. reflexivity.
  - destruct k as [|k].
    + apply in_combine_l, in_seq in Hin. lia.
    + cbn. apply (IH k (S first)).
      now replace (S first + k)%nat with (first + S k)%nat by lia.
Qed.

Lemma layerCalls_call layer' s layer i rect range :
  In (PlotPaint layer i rect range) (layerCalls layer' s) ->
  exists plot, nth_error (plots s) i = Some plot /\
               rect = plotRect s i plot /\ range = viewRange s.
Proof.
  unfold layerCalls. intros Hin. apply in_map_iff in Hin.
  destruct Hin as ([k p] & Hcall & Hin). cbn [fst snd] in Hcall.
  injection Hcall as _ Hk Hrect Hrange. subst k.
  exists p. split; [|split; congruence].
  now apply (combine_seq_nth (plots s) i 0%nat).
Qed.

(** X8. Painting and routing agree: whenever a press, move or release is
    offered to a plot, the vertical coordinate the plot is given is the
    coordinate of the event less the top of the strip this plot is painted
    in, and the horizontal coordinate is the one of the event. *)
Theorem routing_matches_painting cursorsMouseEvent kbd widgetHeight m s
    i local layer rect range :
  In (ToPlot i, local)
     (snd (fst (eventFilter cursorsMouseEvent kbd (Qt.EvMouse m) s))) ->
  In (PlotPaint layer i rect range) (paintEvent false widgetHeight s) ->
  Qt.posY local = wrap32 (Qt.posY m - Qt.y1 rect) /\
  Qt.posX local = Qt.posX m /\
  Qt.x1 rect = 0.
Proof.
  intros Hoffer Hpaint.
  assert (Hlocal : local = localEvent kbd m (plotTop s i)).
  { unfold eventFilter in Hoffer.
    destruct (isPointerEvent (Qt.evType m)); [|destruct Hoffer].
    destruct (cursorsMouseEvent (cursors s) (Qt.evType m) m).
    - cbn in Hoffer. destruct Hoffer as [H | []]. discriminate H.
    - pose proof (offerToPlots_offer kbd m s i local) as H.
      destruct (offerToPlots kbd m _ 0%nat (plots s)) as [result offers].
      cbn [fst snd] in *. destruct Hoffer as [Hov | Hin];
        [discriminate Hov | now apply H]. }
  assert (Hrect : exists plot, rect = plotRect s i plot).
  { unfold paintEvent in Hpaint.
    rewrite !PLOT_LAYER_layerCalls in Hpaint.
    destruct Hpaint as [H | Hin]; [discriminate H|].
    repeat (apply in_app_or in Hin; destruct Hin as [Hin | Hin]);
      try (apply layerCalls_call in Hin;
           destruct Hin as (plot & _ & Hr & _); now exists plot).
    destruct (cursorsEnabled s); [|destruct Hin].
    destruct Hin as [H | []]. discriminate H. }
  destruct Hrect as (plot & ->). subst local.
  unfold localEvent, plotRect. cbn.
  now rewrite wrap32_sub_r.
Qed.

Lemma routing_matches_painting_witness :
  Qt.posY (pressAt 5 30) = wrap32 (Qt.posY (pressAt 5 120) - 90) /\
  Qt.posX (pressAt 5 30) = Qt.posX (pressAt 5 120) /\
  Qt.x1 (Qt.mkRect 0 90 10 50) = 0.
Proof.
  apply (routing_matches_painting (fun _ => declines) 0 100 (pressAt 5 120)
           (stackedView [mkPlot 100 declines; mkPlot 50 consumes] 10)
           1%nat (pressAt 5 30) paintMid (Qt.mkRect 0 90 10 50)
           (mkRange 0 640)).
  - vm_compute. right. right. now left.
  - vm_compute. do 4 right. now left.
Defined.

(** ** What [updateView] keeps and what it sets *)

Lemma updateView_result reCenter s s' :
  updateView reCenter s = Some s' ->
  verticalScrollBar s' =
    Qt.setMaximum
      (Z.max 0 (wrap32 (plotsHeight s - Qt.height (viewport s))))
      (verticalScrollBar s) /\
  selectedSamples s' = selectedSamples s /\
  mainSampleSource s' = mainSampleSource s /\
  fftSize s' = fftSize s /\ zoomLevel s' = zoomLevel s /\
  spectrogramPlot s' = spectrogramPlot s /\
  plots s' = plots s /\ cursorsEnabled s' = cursorsEnabled s /\
  segments (cursors s') = segments (cursors s) /\
  width s' = width s /\ viewport s' = viewport s /\
  emitted s' = emitted s ++ [viewportUpdate].
Proof.
  unfold updateView. destruct (samplesPerLine s) as [spl|]; [|discriminate].
  cbn [bind].
  destruct (sampleToColumn _ spl (minimum _)) as [lo|]; [|discriminate].
  cbn [bind].
  destruct (sampleToColumn _ spl (maximum _)) as [hi|]; [|discriminate].
  cbn [bind]. intros [= <-]. cbn. repeat split.
Qed.

(** X10. Unlike the horizontal one, the vertical maximum is clamped:
    after [updateView] it is [max(0, plotsHeight() - viewport height)],
    never negative and zero when the plots fit the viewport; a vertical
    minimum of zero stays, and the vertical scroll position is pulled back
    to the new maximum and not moved otherwise. *)
Theorem updateView_vertical reCenter s spl :
  samplesPerLine s = Some spl -> 1 <= spl ->
  exists s',
    updateView reCenter s = Some s' /\
    Qt.maximum (verticalScrollBar s')
      = Z.max 0 (wrap32 (plotsHeight s - Qt.height (viewport s))) /\
    0 <= Qt.maximum (verticalScrollBar s') /\
    (wrap32 (plotsHeight s - Qt.height (viewport s)) <= 0 ->
     Qt.maximum (verticalScrollBar s') = 0) /\
    (Qt.minimum (verticalScrollBar s) <= 0 ->
     Qt.minimum (verticalScrollBar s') = Qt.minimum (verticalScrollBar s)) /\
    (Qt.minimum (verticalScrollBar s) <= 0 ->
     Qt.minimum (verticalScrollBar s) <= Qt.value (verticalScrollBar s)
       <= Qt.maximum (verticalScrollBar s) ->
     Qt.value (verticalScrollBar s')
       = Z.min (Qt.maximum (verticalScrollBar s'))
               (Qt.value (verticalScrollBar s))).
Proof.
  intros Hspl Hpos.
  destruct (updateView_runs reCenter s spl Hspl Hpos) as (s' & Hrun & _).
  exists s'. split; [exact Hrun|].
  destruct (updateView_result _ _ _ Hrun) as (Hvb & _).
  rewrite Hvb, setMaximum_maximum, setMaximum_minimum.
  repeat match goal with |- _ /\ _ => split end; try lia.
  intros Hmin Hin. apply setMaximum_value; lia.
Qed.

Lemma updateView_vertical_witness :
  exists s',
    updateView false
      (stackedView [mkPlot 100 declines; mkPlot 50 consumes] 80)
      = Some s' /\
    Qt.maximum (verticalScrollBar s') = 50 /\
    Qt.value (verticalScrollBar s') = 50.
Proof.
  destruct (updateView_vertical false
    (stackedView [mkPlot 100 declines; mkPlot 50 consumes] 80) 64
    eq_refl ltac:(lia)) as (s' & Hrun & Hmax & _ & _ & _ & Hval).
  exists s'. split; [exact Hrun|].
  vm_compute in Hrun. injection Hrun as <-.
  split; [exact Hmax|].
  rewrite Hval; [reflexivity | vm_compute; discriminate |].
  split; vm_compute; discriminate.
Defined.

(** ** Setting the same maximum twice *)

Lemma setMaximum_idempotent hi sb :
  Qt.setMaximum hi (Qt.setMaximum hi sb) = Qt.setMaximum hi sb.
Proof.
  pose proof (setMaximum_minimum hi sb) as Hmin.
  pose proof (setMaximum_maximum hi sb) as Hmax.
  set (sb1 := Qt.setMaximum hi sb) in *.
  unfold Qt.setMaximum, Qt.setRange. cbn.
  rewrite Hmin, Hmax.
  replace (Z.min (Z.min (Qt.minimum sb) hi) hi)
    with (Z.min (Qt.minimum sb) hi) by lia.
  replace (Z.max (Z.min (Qt.minimum sb) hi) hi) with hi by lia.
  rewrite !Z.eqb_refl. cbn.
  rewrite <- Hmin, <- Hmax. now destruct sb1.
Qed.

(** ** Recentering when nothing changed *)

(** X12. Recentering is harmless when the zoom did not change: on a view
    whose range is the one of the current scroll position and samples per
    column, [updateView(true)] does exactly what [updateView(false)]
    does. *)
Theorem updateView_recenter_same_zoom s spl :
  valid s -> samplesPerLine s = Some spl ->
  Qt.minimum (horizontalScrollBar s) <= Qt.value (horizontalScrollBar s)
    <= Qt.maximum (horizontalScrollBar s) ->
  viewRange s =
    mkRange (Qt.value (horizontalScrollBar s))
            (Qt.value (horizontalScrollBar s) + width s * spl) ->
  updateView true s = updateView false s.
Proof.
  intros (Hfft & _ & Hw & Hv & _) Hspl Hin Hview.
  pose proof (samplesPerLine_is_int s spl Hfft Hspl) as Hs.
  assert (Hset :
    Qt.setValue
      (wrap32 (wrap64 (Qt.value (horizontalScrollBar s) +
         wrap64 (Range.length wrap64 (viewRange s)
                 - Range.length wrap64
                     (mkRange (Qt.value (horizontalScrollBar s))
                        (wrap64 (Qt.value (horizontalScrollBar s)
                                 + wrap64 (width s * spl))))) ÷ 2)))
      (horizontalScrollBar s)
    = horizontalScrollBar s).
  { rewrite Hview.
    rewrite (wrap64_id (width s * spl)) by now apply int_mul_is_off.
    rewrite (wrap64_id (_ + width s * spl))
      by now apply int_add_mul_is_off.
    rewrite Z.sub_diag. change (wrap64 0 ÷ 2) with 0.
    rewrite Z.add_0_r.
    rewrite wrap64_id by (revert Hv; unfold_ranges; lia).
    rewrite wrap32_id by assumption.
    unfold Qt.setValue, Qt.bound.
    replace (Z.max _ _) with (Qt.value (horizontalScrollBar s)) by lia.
    now destruct (horizontalScrollBar s). }
  unfold updateView. rewrite Hspl. cbn [bind].
  cbn [horizontalScrollBar with_viewRange viewRange].
  now rewrite Hset.
Qed.

Lemma updateView_recenter_same_zoom_witness :
  updateView true
    (exampleView 100000 64 1 10 100 (Qt.mkScrollBar 0 99424 1000 1 10)
       (mkRange 1000 1640) (mkRange 0 0) (mkRange 0 0))
  = updateView false
      (exampleView 100000 64 1 10 100 (Qt.mkScrollBar 0 99424 1000 1 10)
         (mkRange 1000 1640) (mkRange 0 0) (mkRange 0 0)).
Proof.
  apply (updateView_recenter_same_zoom
           (exampleView 100000 64 1 10 100
              (Qt.mkScrollBar 0 99424 1000 1 10)
              (mkRange 1000 1640) (mkRange 0 0) (mkRange 0 0)) 64).
  - unfold valid, is_int, INT_MIN, INT_MAX. simpl. lia.
  - reflexivity.
  - simpl. lia.
  - reflexivity.
Defined.

(** ** The scroll steps *)

Lemma setMaximum_steps hi sb :
  Qt.singleStep (Qt.setMaximum hi sb) = Qt.singleStep sb /\
  Qt.pageStep (Qt.setMaximum hi sb) = Qt.pageStep sb.
Proof.
  unfold Qt.setMaximum, Qt.setRange. cbn.
  destruct (_ && _); split; reflexivity.
Qed.

Lemma quot_scaled size zoom k :
  1 <= zoom -> 0 <= size -> 1 <= k ->
  k * (size ÷ zoom) <= (size * k) ÷ zoom < k * (size ÷ zoom + 1).
Proof.
  intros Hz Hs Hk.
  pose proof (Z.quot_rem' size zoom) as H1.
  pose proof (Z.rem_bound_pos_pos size zoom ltac:(lia) ltac:(lia)) as R1.
  pose proof (Z.quot_rem' (size * k) zoom) as H2.
  pose proof (Z.rem_bound_pos_pos (size * k) zoom ltac:(lia) ltac:(nia))
    as R2.
  split; nia.
Qed.

(** X13. [setFFTAndZoom] makes the scroll steps follow the zoom: for an
    FFT size of at least the zoom level (and small enough for a hundred
    times it to be an [int]) the single step is [size * 10 / zoom], at
    least ten columns' worth of samples and less than ten columns would
    hold with one more sample each, the page step is [size * 100 / zoom],
    at least ten single steps, and the spectrogram plot, when there is
    one, is handed the same size and zoom level. *)
Theorem setFFTAndZoom_steps s size zoom :
  1 <= zoom <= size -> size * 100 <= INT_MAX ->
  exists s',
    setFFTAndZoom size zoom s = Some s' /\
    Qt.singleStep (horizontalScrollBar s') = (size * 10) ÷ zoom /\
    Qt.pageStep (horizontalScrollBar s') = (size * 100) ÷ zoom /\
    10 * (size ÷ zoom) <= Qt.singleStep (horizontalScrollBar s')
      < 10 * (size ÷ zoom + 1) /\
    10 * Qt.singleStep (horizontalScrollBar s')
      <= Qt.pageStep (horizontalScrollBar s') /\
    spectrogramPlot s' =
      option_map (fun _ => mkSpectrogram size zoom) (spectrogramPlot s).
Proof.
  intros Hz Hfit. unfold INT_MAX in Hfit.
  change (2 ^ 31) with 2147483648 in Hfit.
  pose proof (quot_ge_1 size zoom Hz) as Hq.
  pose proof (quot_scaled size zoom 10 ltac:(lia) ltac:(lia) ltac:(lia))
    as H10.
  pose proof (quot_scaled size zoom 100 ltac:(lia) ltac:(lia) ltac:(lia))
    as H100.
  pose proof (quot_scaled (size * 10) zoom 10 ltac:(lia) ltac:(lia)
                ltac:(lia)) as Hpage.
  replace (size * 10 * 10) with (size * 100) in Hpage by lia.
  assert (Hup10 : (size * 10) ÷ zoom <= size * 10).
  { apply Z.quot_le_upper_bound; nia. }
  assert (Hup100 : (size * 100) ÷ zoom <= size * 100).
  { apply Z.quot_le_upper_bound; nia. }
  unfold setFFTAndZoom. cbn [zoomLevel with_zoom].
  rewrite !wrap32_id by (unfold_ranges; lia).
  unfold int_div. rewrite !cdiv_pos by lia. cbn [bind].
  match goal with |- context [updateView true ?x] => set (s2 := x) end.
  assert (Hspl : samplesPerLine s2 = Some (size ÷ zoom)).
  { unfold samplesPerLine, int_div. cbn. apply cdiv_pos. lia. }
  destruct (updateView_runs true s2 _ Hspl Hq)
    as (s' & Hrun & _ & Hhb & _).
  destruct (updateView_result _ _ _ Hrun)
    as (_ & _ & _ & _ & _ & Hsp & _).
  exists s'. split; [exact Hrun|].
  rewrite Hhb, Hsp.
  destruct (setMaximum_steps
    (wrap32 (wrap64 (count (mainSampleSource s2)
                     - wrap64 (wrap32 (width s2 - 1) * (size ÷ zoom)))))
    (Qt.setValue
       (wrap32 (wrap64 (Qt.value (horizontalScrollBar s2) +
          wrap64 (Range.length wrap64 (viewRange s2)
                  - Range.length wrap64
                      (mkRange (Qt.value (horizontalScrollBar s2))
                         (wrap64 (Qt.value (horizontalScrollBar s2)
                                  + wrap64 (width s2 * (size ÷ zoom))))))
          ÷ 2)))
       (horizontalScrollBar s2))) as (-> & ->).
  cbn -[Z.mul Z.quot Z.add Z.abs wrap32].
  rewrite !Z.abs_eq by lia.
  rewrite !wrap32_id by (unfold_ranges; lia).
  repeat split; try lia.
Qed.

Lemma setFFTAndZoom_steps_witness :
  exists s',
    setFFTAndZoom 1024 3
      (exampleView 100000 512 1 10 100 (Qt.mkScrollBar 0 424 0 1 10)
         (mkRange 0 5120) (mkRange 0 0) (mkRange 0 0)) = Some s' /\
    Qt.singleStep (horizontalScrollBar s') = 3413 /\
    Qt.pageStep (horizontalScrollBar s') = 34133.
Proof.
  destruct (setFFTAndZoom_steps
    (exampleView 100000 512 1 10 100 (Qt.mkScrollBar 0 424 0 1 10)
       (mkRange 0 5120) (mkRange 0 0) (mkRange 0 0)) 1024 3)
    as (s' & Hrun & Hsingle & Hpage & _).
  - lia.
  - unfold INT_MAX. simpl. lia.
  - exists s'. split; [exact Hrun|].
    split; [exact Hsingle | exact Hpage].
Defined.

(** ** Cursors and selection *)

(** X14. From cursors to samples and back nothing is lost: after
    [cursorsMoved], an [updateView] that keeps the scroll position puts the
    pixel cursors exactly where they were. *)
Theorem cursors_round_trip s spl :
  valid s -> scrollbar_ok (horizontalScrollBar s) ->
  samplesPerLine s = Some spl -> 1 <= spl ->
  exists s1 s2,
    cursorsMoved s = Some s1 /\
    updateView false s1 = Some s2 /\
    (Qt.value (horizontalScrollBar s) <= Qt.maximum (horizontalScrollBar s2) ->
     Qt.value (horizontalScrollBar s2) = Qt.value (horizontalScrollBar s) /\
     selection (cursors s2) = selection (cursors s)).
Proof.
  intros Hvalid Hsb Hspl Hpos.
  destruct (cursorsMoved_runs s spl Hvalid Hspl) as (s1 & Hrun1 & Hsel1 & _).
  destruct (cursorsMoved_frame s s1 Hrun1)
    as (_ & Hfft & Hzoom & Hhb1 & _ & Hcur & _).
  assert (Hspl1 : samplesPerLine s1 = Some spl).
  { unfold samplesPerLine in *. now rewrite Hfft, Hzoom. }
  destruct (updateView_runs false s1 spl Hspl1 Hpos)
    as (s2 & Hrun2 & _ & Hhb2 & Hpix & _).
  exists s1, s2. split; [exact Hrun1|]. split; [exact Hrun2|].
  intros Hmax.
  destruct Hvalid as (Vfft & _ & _ & Vv & Vlo & Vhi).
  pose proof (samplesPerLine_is_int s spl Vfft Hspl) as Hs.
  assert (Hval : Qt.value (horizontalScrollBar s2)
                 = Qt.value (horizontalScrollBar s)).
  { destruct Hsb as (_ & _ & Hin).
    rewrite Hhb2, Hhb1 in Hmax |- *. rewrite setMaximum_maximum in Hmax.
    rewrite setMaximum_value; lia. }
  split; [exact Hval|].
  rewrite Hpix, Hsel1, Hval. cbn.
  replace (Qt.value (horizontalScrollBar s)
           + minimum (selection (cursors s)) * spl
           - Qt.value (horizontalScrollBar s))
    with (minimum (selection (cursors s)) * spl) by lia.
  replace (Qt.value (horizontalScrollBar s)
           + maximum (selection (cursors s)) * spl
           - Qt.value (horizontalScrollBar s))
    with (maximum (selection (cursors s)) * spl) by lia.
  rewrite !wrap64_id by now apply int_mul_is_off.
  rewrite !Z.quot_mul by lia.
  rewrite !wrap32_id by assumption.
  now destruct (selection (cursors s)).
Qed.

Lemma cursors_round_trip_witness :
  exists s1 s2,
    cursorsMoved
      (exampleView 1000 64 1 10 100 (Qt.mkScrollBar 0 424 10 1 10)
         (mkRange 10 650) (mkRange 0 0) (mkRange 2 5)) = Some s1 /\
    updateView false s1 = Some s2 /\
    selectedSamples s1 = mkRange 138 330 /\
    selection (cursors s2) = mkRange 2 5.
Proof.
  destruct (cursors_round_trip
    (exampleView 1000 64 1 10 100 (Qt.mkScrollBar 0 424 10 1 10)
       (mkRange 10 650) (mkRange 0 0) (mkRange 2 5)) 64)
    as (s1 & s2 & H1 & H2 & Hback).
  - unfold valid, is_int, INT_MIN, INT_MAX. simpl. lia.
  - unfold scrollbar_ok, is_int, INT_MIN, INT_MAX. simpl. lia.
  - reflexivity.
  - lia.
  - exists s1, s2. split; [exact H1|]. split; [exact H2|].
    vm_compute in H1. injection H1 as <-.
    split; [reflexivity|].
    vm_compute in H2. injection H2 as <-.
    apply Hback. vm_compute. discriminate.
Defined.

(** X15. The selection [cursorsMoved] stores is as long as the cursors are
    apart, in columns, times the samples per column, wherever the view is
    scrolled to; with cursors in order and at least zero samples per column
    it is never inverted. *)
Theorem cursorsMoved_length s spl :
  valid s -> samplesPerLine s = Some spl ->
  exists s',
    cursorsMoved s = Some s' /\
    Range.length wrap64 (selectedSamples s')
      = (maximum (selection (cursors s))
         - minimum (selection (cursors s))) * spl /\
    (0 <= spl ->
     minimum (selection (cursors s)) <= maximum (selection (cursors s)) ->
     minimum (selectedSamples s') <= maximum (selectedSamples s')).
Proof.
  intros Hvalid Hspl.
  destruct (cursorsMoved_runs s spl Hvalid Hspl) as (s' & Hrun & Hsel & _).
  exists s'. split; [exact Hrun|].
  destruct Hvalid as (Vfft & _ & _ & Vv & Vlo & Vhi).
  pose proof (samplesPerLine_is_int s spl Vfft Hspl) as Hs.
  rewrite Hsel. unfold Range.length. cbn.
  replace (Qt.value (horizontalScrollBar s)
           + maximum (selection (cursors s)) * spl
           - (Qt.value (horizontalScrollBar s)
              + minimum (selection (cursors s)) * spl))
    with ((maximum (selection (cursors s))
           - minimum (selection (cursors s))) * spl) by lia.
  split; [|nia].
  apply wrap64_id. revert Vlo Vhi Hs. unfold_ranges. nia.
Qed.

Lemma cursorsMoved_length_witness :
  exists s',
    cursorsMoved
      (exampleView 1000 64 1 10 100 (Qt.mkScrollBar 0 424 10 1 10)
         (mkRange 10 650) (mkRange 0 0) (mkRange 2 5)) = Some s' /\
    Range.length wrap64 (selectedSamples s') = (5 - 2) * 64.
Proof.
  destruct (cursorsMoved_length
    (exampleView 1000 64 1 10 100 (Qt.mkScrollBar 0 424 10 1 10)
       (mkRange 10 650) (mkRange 0 0) (mkRange 2 5)) 64)
    as (s' & Hrun & Hlen & _).
  - unfold valid, is_int, INT_MIN, INT_MAX. simpl. lia.
  - reflexivity.
  - exists s'. split; [exact Hrun | exact Hlen].
Defined.

(** X16. [updateView] keeps the cursors in order: when the stored
    selection is not inverted and both its columns fit an [int], the left
    cursor is not to the right of the right one. *)
Theorem updateView_cursor_order reCenter s spl :
  valid s -> scrollbar_ok (horizontalScrollBar s) ->
  samplesPerLine s = Some spl -> 1 <= spl ->
  exists s',
    updateView reCenter s = Some s' /\
    (is_int ((minimum (selectedSamples s)
              - Qt.value (horizontalScrollBar s')) ÷ spl) ->
     is_int ((maximum (selectedSamples s)
              - Qt.value (horizontalScrollBar s')) ÷ spl) ->
     minimum (selectedSamples s) <= maximum (selectedSamples s) ->
     minimum (selection (cursors s')) <= maximum (selection (cursors s'))).
Proof.
  intros Hvalid Hsb Hspl Hpos.
  destruct (updateView_runs reCenter s spl Hspl Hpos)
    as (s' & Hrun & _ & _ & Hpix & _).
  exists s'. split; [exact Hrun|]. intros Hlo Hhi Hord.
  pose proof (updateView_scrollbar_ok _ _ _ _ Hsb Hspl Hpos Hrun) as Hsb'.
  pose proof (scrollbar_ok_value _ Hsb') as Hv'.
  destruct Hvalid as (Vfft & _).
  pose proof (samplesPerLine_is_int s spl Vfft Hspl) as Hs.
  rewrite Hpix. cbn.
  rewrite !wrap64_id by (eapply column_fits_is_off; eassumption).
  rewrite !wrap32_id by assumption.
  apply Z.quot_le_mono; lia.
Qed.

Lemma updateView_cursor_order_witness :
  exists s',
    updateView false
      (exampleView 1000 64 1 10 100 (Qt.mkScrollBar 0 424 200 1 10)
         (mkRange 200 840) (mkRange 100 300) (mkRange 0 0)) = Some s' /\
    selection (cursors s') = mkRange (-1) 1 /\
    minimum (selection (cursors s')) <= maximum (selection (cursors s')).
Proof.
  destruct (updateView_cursor_order false
    (exampleView 1000 64 1 10 100 (Qt.mkScrollBar 0 424 200 1 10)
       (mkRange 200 840) (mkRange 100 300) (mkRange 0 0)) 64)
    as (s' & Hrun & Hord).
  - unfold valid, is_int, INT_MIN, INT_MAX. simpl. lia.
  - unfold scrollbar_ok, is_int, INT_MIN, INT_MAX. simpl. lia.
  - reflexivity.
  - lia.
  - exists s'. split; [exact Hrun|].
    vm_compute in Hrun. injection Hrun as <-.
    split; [reflexivity|].
    apply Hord; try (split; vm_compute; discriminate).
    simpl. lia.
Defined.

Lemma enableCursors_pixels s x y w h :
  viewport s = Qt.mkRect x y w h ->
  INT_MIN < x <= INT_MAX -> 0 <= w <= INT_MAX -> x + w - 1 <= INT_MAX ->
  Qt.left (viewport s) = x /\ Qt.right (viewport s) = x + w - 1 /\
  selection (cursors (enableCursors true s))
  = mkRange (x + w ÷ 3) (x + w - 1 - w ÷ 3).
Proof.
  intros Hvp Hx Hw Hr.
  assert (Hq : 0 <= w ÷ 3 <= w).
  { split; [apply Z.quot_pos; lia|].
    apply Z.quot_le_upper_bound; lia. }
  assert (Hq1 : w = 0 \/ w ÷ 3 <= w - 1).
  { destruct (Z.eq_dec w 0); [now left|right].
    enough (w ÷ 3 < w) by lia. apply Z.quot_lt; lia. }
  unfold INT_MIN, INT_MAX in *.
  change (2 ^ 31) with 2147483648 in *.
  assert (Hright : Qt.right (viewport s) = x + w - 1).
  { rewrite Hvp. cbn. apply wrap32_id. unfold_ranges. lia. }
  assert (Hleft : Qt.left (viewport s) = x) by now rewrite Hvp.
  assert (Hwidth : Qt.width (viewport s) = w).
  { unfold Qt.width. fold (Qt.right (viewport s)) (Qt.left (viewport s)).
    rewrite Hright, Hleft. replace (x + w - 1 - x + 1) with w by lia.
    apply wrap32_id. unfold_ranges. lia. }
  split; [exact Hleft|]. split; [exact Hright|].
  unfold enableCursors. cbn.
  rewrite Hwidth, Hright, Hleft.
  now rewrite !wrap32_id by (unfold_ranges; lia).
Qed.

(** X17. The cursors [enableCursors(true)] places lie inside the viewport,
    the left one not right of the right one, as soon as the viewport is one
    pixel wide; on an empty viewport they come out inverted, the right
    cursor one pixel left of the left one. *)
Theorem enableCursors_inside s x y w h :
  viewport s = Qt.mkRect x y w h ->
  INT_MIN < x <= INT_MAX -> 0 <= w <= INT_MAX -> x + w - 1 <= INT_MAX ->
  (1 <= w ->
   Qt.left (viewport s) <= minimum (selection (cursors (enableCursors true s)))
   /\ minimum (selection (cursors (enableCursors true s)))
      <= maximum (selection (cursors (enableCursors true s)))
   /\ maximum (selection (cursors (enableCursors true s)))
      <= Qt.right (viewport s)) /\
  (w = 0 ->
   maximum (selection (cursors (enableCursors true s)))
   = minimum (selection (cursors (enableCursors true s))) - 1).
Proof.
  intros Hvp Hx Hw Hr.
  destruct (enableCursors_pixels s x y w h Hvp Hx Hw Hr)
    as (-> & -> & ->).
  cbn [minimum maximum].
  pose proof (Z.quot_rem' w 3) as Hq.
  pose proof (Z.rem_bound_pos_pos w 3 ltac:(lia) ltac:(lia)) as Hrem.
  split.
  - intros Hw1. lia.
  - intros ->. change (0 ÷ 3) with 0. lia.
Qed.

Lemma enableCursors_inside_witness :
  let s := exampleView 1000 64 1 10 100 (Qt.mkScrollBar 0 424 0 1 10)
             (mkRange 0 640) (mkRange 0 0) (mkRange 0 0) in
  0 <= minimum (selection (cursors (enableCursors true s)))
  /\ minimum (selection (cursors (enableCursors true s)))
     <= maximum (selection (cursors (enableCursors true s)))
  /\ maximum (selection (cursors (enableCursors true s))) <= 9.
Proof.
  apply (proj1 (enableCursors_inside
           (exampleView 1000 64 1 10 100 (Qt.mkScrollBar 0 424 0 1 10)
              (mkRange 0 640) (mkRange 0 0) (mkRange 0 0)) 0 0 10 100
           eq_refl
           ltac:(unfold INT_MIN, INT_MAX; simpl; lia)
           ltac:(unfold INT_MAX; simpl; lia)
           ltac:(unfold INT_MAX; simpl; lia))).
  lia.
Defined.

(** X18. Enabling the cursors and taking their position over selects
    samples that are on the screen: after [enableCursors(true)] and
    [cursorsMoved], on a viewport at least one pixel wide and with at least
    one sample per column, the selection starts at or after the scroll
    position, is not inverted, and ends before the sample of the first
    column past the viewport. *)
Theorem enableCursors_selects_visible s spl w h :
  valid s -> samplesPerLine s = Some spl -> 1 <= spl ->
  viewport s = Qt.mkRect 0 0 w h -> 1 <= w <= INT_MAX ->
  exists s',
    cursorsMoved (enableCursors true s) = Some s' /\
    Qt.value (horizontalScrollBar s) <= minimum (selectedSamples s') /\
    minimum (selectedSamples s') <= maximum (selectedSamples s') /\
    maximum (selectedSamples s')
      < Qt.value (horizontalScrollBar s) + w * spl.
Proof.
  intros Hvalid Hspl Hpos Hvp Hw.
  assert (Hmax : INT_MAX = 2147483647) by reflexivity.
  assert (Hmin : INT_MIN = -2147483648) by reflexivity.
  destruct (enableCursors_pixels s 0 0 w h Hvp ltac:(lia) ltac:(lia)
              ltac:(lia)) as (_ & _ & Hpix).
  pose proof (Z.quot_rem' w 3) as Hq.
  pose proof (Z.rem_bound_pos_pos w 3 ltac:(lia) ltac:(lia)) as Hrem.
  assert (Hvalid1 : valid (enableCursors true s)).
  { destruct Hvalid as (V1 & V2 & V3 & V4 & _).
    unfold valid. rewrite Hpix.
    repeat match goal with |- _ /\ _ => split end;
      try assumption; cbn [minimum maximum]; unfold is_int; lia. }
  destruct (cursorsMoved_runs (enableCursors true s) spl Hvalid1 Hspl)
    as (s' & Hrun & Hsel & _).
  exists s'. split; [exact Hrun|].
  rewrite Hsel, Hpix. cbn [minimum maximum].
  change (horizontalScrollBar (enableCursors true s))
    with (horizontalScrollBar s).
  set (q := w ÷ 3) in *. clearbody q.
  assert (Hq0 : 0 <= q) by lia.
  assert (Hq2 : q <= w - 1 - q) by lia.
  pose proof (Z.mul_nonneg_nonneg q spl Hq0 ltac:(lia)).
  pose proof (Z.mul_le_mono_nonneg_r q (w - 1 - q) spl ltac:(lia) Hq2).
  pose proof (Z.mul_lt_mono_pos_r spl (w - 1 - q) w ltac:(lia)) as [Hlt _].
  specialize (Hlt ltac:(lia)).
  replace (0 + q) with q by lia.
  replace (0 + w - 1 - q) with (w - 1 - q) by lia.
  repeat split; lia.
Qed.

Lemma enableCursors_selects_visible_witness :
  exists s',
    cursorsMoved
      (enableCursors true
         (exampleView 1000 64 1 10 100 (Qt.mkScrollBar 0 424 100 1 10)
            (mkRange 100 740) (mkRange 0 0) (mkRange 0 0))) = Some s' /\
    selectedSamples s' = mkRange 292 484 /\
    100 <= minimum (selectedSamples s') /\
    minimum (selectedSamples s') <= maximum (selectedSamples s') /\
    maximum (selectedSamples s') < 100 + 10 * 64.
Proof.
  destruct (enableCursors_selects_visible
    (exampleView 1000 64 1 10 100 (Qt.mkScrollBar 0 424 100 1 10)
       (mkRange 100 740) (mkRange 0 0) (mkRange 0 0)) 64 10 100)
    as (s' & Hrun & H1 & H2 & H3).
  - unfold valid, is_int, INT_MIN, INT_MAX. simpl. lia.
  - reflexivity.
  - lia.
  - reflexivity.
  - unfold INT_MAX. simpl. lia.
  - exists s'. split; [exact Hrun|].
    vm_compute in Hrun. injection Hrun as <-.
    split; [reflexivity|]. auto.
Defined.

(** ** At the right end *)

(** X19. Scrolled as far right as the scroll bar goes, the view shows the
    end of the source in all columns but the last: with the scroll position
    at [count - (width - 1) * samplesPerLine], [updateView] keeps it there
    and the view range ends one column's worth of samples past the last
    sample. *)
Theorem updateView_at_right_end s spl :
  valid s -> scrollbar_ok (horizontalScrollBar s) ->
  samplesPerLine s = Some spl -> 1 <= spl -> 1 <= width s ->
  Qt.value (horizontalScrollBar s)
    = count (mainSampleSource s) - (width s - 1) * spl ->
  exists s',
    updateView false s = Some s' /\
    Qt.maximum (horizontalScrollBar s') = Qt.value (horizontalScrollBar s) /\
    Qt.value (horizontalScrollBar s') = Qt.value (horizontalScrollBar s) /\
    minimum (viewRange s')
      = count (mainSampleSource s) - (width s - 1) * spl /\
    maximum (viewRange s') = count (mainSampleSource s) + spl.
Proof.
  intros (Hfft & _ & Hw & Hv & _) Hsb Hspl Hpos Hw1 Hend.
  pose proof (samplesPerLine_is_int s spl Hfft Hspl) as Hs.
  destruct (updateView_runs false s spl Hspl Hpos)
    as (s' & Hrun & Hvr & Hhb & _).
  exists s'. split; [exact Hrun|].
  assert (Hw1' : wrap32 (width s - 1) = width s - 1).
  { apply wrap32_id. revert Hw. unfold_ranges. lia. }
  assert (Harg :
    wrap32 (wrap64 (count (mainSampleSource s)
                    - wrap64 (wrap32 (width s - 1) * spl)))
    = Qt.value (horizontalScrollBar s)).
  { rewrite Hw1'.
    rewrite (wrap64_id ((width s - 1) * spl))
      by (revert Hw Hs; unfold_ranges; nia).
    rewrite <- Hend.
    rewrite wrap64_id by (revert Hv; unfold_ranges; lia).
    now apply wrap32_id. }
  rewrite Harg in Hhb.
  destruct Hsb as (_ & _ & Hin).
  rewrite Hhb, Hvr, setMaximum_maximum, setMaximum_value by lia.
  cbn [minimum maximum].
  rewrite (wrap64_id (width s * spl)) by now apply int_mul_is_off.
  rewrite wrap64_id by now apply int_add_mul_is_off.
  repeat split; lia.
Qed.

Lemma updateView_at_right_end_witness :
  exists s',
    updateView false
      (exampleView 1000 64 1 10 100 (Qt.mkScrollBar 0 424 424 1 10)
         (mkRange 0 640) (mkRange 0 0) (mkRange 0 0)) = Some s' /\
    viewRange s' = mkRange 424 1064 /\
    maximum (viewRange s') = 1000 + 64.
Proof.
  destruct (updateView_at_right_end
    (exampleView 1000 64 1 10 100 (Qt.mkScrollBar 0 424 424 1 10)
       (mkRange 0 640) (mkRange 0 0) (mkRange 0 0)) 64)
    as (s' & Hrun & _ & _ & _ & Hmax).
  - unfold valid, is_int, INT_MIN, INT_MAX. simpl. lia.
  - unfold scrollbar_ok, is_int, INT_MIN, INT_MAX. simpl. lia.
  - reflexivity.
  - lia.
  - simpl. lia.
  - reflexivity.
  - exists s'. split; [exact Hrun|]. split; [|exact Hmax].
    vm_compute in Hrun. now injection Hrun as <-.
Defined.

(** * The view with its scroll bars calling back *)

(** ** Where [updateView] comes to rest *)

Lemma finish_settled spl s :
  1 <= spl -> shown spl s ->
  Reentrant.finish spl s
  = Done (settled spl s (horizontalScrollBar s) (verticalScrollBar s) 1).
Proof.
  intros Hpos Hshown. unfold Reentrant.finish.
  rewrite !sampleToColumn_pos by assumption.
  unfold shown in Hshown. unfold settled. rewrite <- Hshown.
  now destruct s.
Qed.

Lemma settled_again spl s hb vb k :
  settled spl (settled spl s hb vb k) hb vb 1 = settled spl s hb vb (S k).
Proof.
  unfold settled. cbn. f_equal.
  rewrite <- app_assoc. f_equal.
  change [viewportUpdate] with (repeat viewportUpdate 1).
  rewrite <- repeat_app. now rewrite Nat.add_1_r.
Qed.

Lemma settle_at_rest self spl s :
  1 <= spl -> shown spl s -> hrest spl s -> vrest s ->
  Reentrant.settle self spl s
  = Done (settled spl s (horizontalScrollBar s) (verticalScrollBar s) 1).
Proof.
  intros Hpos Hshown Hh Hv. unfold Reentrant.settle.
  rewrite Hh. unfold Reentrant.delivered at 1. rewrite Z.eqb_refl.
  cbn [andThen].
  replace (with_horizontalScrollBar s (horizontalScrollBar s)) with s
    by now destruct s.
  rewrite Hv. unfold Reentrant.delivered. rewrite Z.eqb_refl.
  cbn [andThen].
  replace (with_verticalScrollBar s (verticalScrollBar s)) with s
    by now destruct s.
  now apply finish_settled.
Qed.

Lemma updateView_at_rest fuel s spl :
  samplesPerLine s = Some spl -> 1 <= spl -> hrest spl s -> vrest s ->
  Reentrant.updateView (S fuel) false s
  = Done (settled spl s (horizontalScrollBar s) (verticalScrollBar s) 1).
Proof.
  intros Hspl Hpos Hh Hv.
  cbn [Reentrant.updateView]. unfold Reentrant.updateViewBody.
  rewrite Hspl. cbn [andThen].
  now rewrite settle_at_rest.
Qed.

Lemma shown_settled spl s hb vb k : shown spl (settled spl s hb vb k).
Proof. reflexivity. Qed.

Lemma finish_after spl s hb vb k :
  1 <= spl ->
  Reentrant.finish spl (settled spl s hb vb k)
  = Done (settled spl s hb vb (S k)).
Proof.
  intros Hpos. rewrite finish_settled by (assumption || apply shown_settled).
  f_equal. apply settled_again.
Qed.

Lemma vertical_at_rest self spl s :
  vrest s ->
  andThen
    (Reentrant.delivered self (verticalScrollBar s)
       (Qt.setMaximum (Reentrant.verticalMaximum s) (verticalScrollBar s))
       (with_verticalScrollBar s
          (Qt.setMaximum (Reentrant.verticalMaximum s)
             (verticalScrollBar s))))
    (Reentrant.finish spl)
  = Reentrant.finish spl s.
Proof.
  intros Hv. unfold vrest in Hv. rewrite Hv.
  unfold Reentrant.delivered. rewrite Z.eqb_refl. cbn [andThen].
  f_equal. now destruct s.
Qed.

(** With the horizontal bar at rest, only the vertical one may call back. *)
Lemma settle_horizontal_at_rest fuel spl s :
  samplesPerLine s = Some spl -> 1 <= spl -> shown spl s -> hrest spl s ->
  exists k, (1 <= k <= 2)%nat /\
    Reentrant.settle (Reentrant.updateView (S fuel) false) spl s
    = Done (settled spl s (horizontalScrollBar s)
              (Qt.setMaximum (Reentrant.verticalMaximum s)
                 (verticalScrollBar s)) k).
Proof.
  intros Hspl Hpos Hshown Hh. unfold Reentrant.settle.
  rewrite Hh. unfold Reentrant.delivered at 1. rewrite Z.eqb_refl.
  cbn [andThen].
  replace (with_horizontalScrollBar s (horizontalScrollBar s)) with s
    by now destruct s.
  set (vb := Qt.setMaximum (Reentrant.verticalMaximum s)
               (verticalScrollBar s)).
  unfold Reentrant.delivered.
  destruct (Qt.value (verticalScrollBar s) =? Qt.value vb).
  - exists 1%nat. split; [lia|]. cbn [andThen].
    now rewrite finish_settled.
  - exists 2%nat. split; [lia|].
    rewrite (updateView_at_rest fuel (with_verticalScrollBar s vb) spl).
    + cbn [andThen]. apply (finish_after spl (with_verticalScrollBar s vb)).
      assumption.
    + exact Hspl.
    + assumption.
    + exact Hh.
    + apply setMaximum_idempotent.
Qed.

Lemma updateView_horizontal_at_rest fuel s spl :
  samplesPerLine s = Some spl -> 1 <= spl -> hrest spl s ->
  exists k, (1 <= k <= 2)%nat /\
    Reentrant.updateView (S (S fuel)) false s
    = Done (settled spl s (horizontalScrollBar s)
              (Qt.setMaximum (Reentrant.verticalMaximum s)
                 (verticalScrollBar s)) k).
Proof.
  intros Hspl Hpos Hh.
  cbn [Reentrant.updateView]. unfold Reentrant.updateViewBody.
  rewrite Hspl. cbn [andThen].
  match goal with |- context [Reentrant.settle _ spl ?x] => set (s1 := x) end.
  destruct (settle_horizontal_at_rest fuel spl s1 Hspl Hpos eq_refl Hh)
    as (k & Hk & Hrun).
  exists k. split; [exact Hk|]. exact Hrun.
Qed.

(** The general case: either bar may call back. *)
Lemma settle_any fuel spl s :
  samplesPerLine s = Some spl -> 1 <= spl -> shown spl s ->
  exists k, (1 <= k <= 3)%nat /\
    Reentrant.settle (Reentrant.updateView (S (S fuel)) false) spl s
    = Done (settled spl s
              (Qt.setMaximum (Reentrant.horizontalMaximum spl s)
                 (horizontalScrollBar s))
              (Qt.setMaximum (Reentrant.verticalMaximum s)
                 (verticalScrollBar s)) k).
Proof.
  intros Hspl Hpos Hshown. unfold Reentrant.settle.
  set (hb := Qt.setMaximum (Reentrant.horizontalMaximum spl s)
               (horizontalScrollBar s)).
  set (vb := Qt.setMaximum (Reentrant.verticalMaximum s)
               (verticalScrollBar s)).
  assert (Hhrest : hrest spl (with_horizontalScrollBar s hb))
    by apply setMaximum_idempotent.
  unfold Reentrant.delivered at 1.
  destruct (Z.eqb_spec (Qt.value (horizontalScrollBar s)) (Qt.value hb))
    as [Hsame | Hmoved].
  - (* the scroll position stays *)
    cbn [andThen].
    change (Reentrant.verticalMaximum (with_horizontalScrollBar s hb))
      with (Reentrant.verticalMaximum s).
    change (verticalScrollBar (with_horizontalScrollBar s hb))
      with (verticalScrollBar s).
    fold vb.
    assert (Hshown' :
      shown spl (with_verticalScrollBar (with_horizontalScrollBar s hb) vb)).
    { unfold shown in *. cbn. now rewrite <- Hsame. }
    unfold Reentrant.delivered.
    destruct (Qt.value (verticalScrollBar s) =? Qt.value vb).
    + exists 1%nat. split; [lia|]. cbn [andThen].
      now rewrite finish_settled.
    + exists 2%nat. split; [lia|].
      rewrite (updateView_at_rest (S fuel)
                 (with_verticalScrollBar (with_horizontalScrollBar s hb) vb)
                 spl).
      * cbn [andThen].
        apply (finish_after spl
                 (with_verticalScrollBar (with_horizontalScrollBar s hb) vb)).
        assumption.
      * exact Hspl.
      * assumption.
      * exact Hhrest.
      * apply setMaximum_idempotent.
  - (* the scroll position is pulled back: the slot runs *)
    destruct (updateView_horizontal_at_rest fuel
                (with_horizontalScrollBar s hb) spl Hspl Hpos Hhrest)
      as (k & Hk & Hrun).
    rewrite Hrun. cbn [andThen].
    exists (S k). split; [lia|].
    rewrite vertical_at_rest
      by exact (setMaximum_idempotent (Reentrant.verticalMaximum s)
                  (verticalScrollBar s)).
    apply (finish_after spl s hb vb k Hpos).
Qed.

Lemma updateView_false_settles fuel s spl :
  samplesPerLine s = Some spl -> 1 <= spl ->
  exists k, (1 <= k <= 3)%nat /\
    Reentrant.updateView (S (S (S fuel))) false s
    = Done (settled spl s
              (Qt.setMaximum (Reentrant.horizontalMaximum spl s)
                 (horizontalScrollBar s))
              (Qt.setMaximum (Reentrant.verticalMaximum s)
                 (verticalScrollBar s)) k).
Proof.
  intros Hspl Hpos.
  cbn [Reentrant.updateView]. unfold Reentrant.updateViewBody.
  rewrite Hspl. cbn [andThen].
  match goal with |- context [Reentrant.settle _ spl ?x] => set (s1 := x) end.
  destruct (settle_any fuel spl s1 Hspl Hpos eq_refl) as (k & Hk & Hrun).
  exists k. split; [exact Hk|]. exact Hrun.
Qed.

Lemma updateView_true_settles fuel s spl :
  samplesPerLine s = Some spl -> 1 <= spl ->
  exists k, (1 <= k <= 4)%nat /\
    Reentrant.updateView (S (S (S (S fuel)))) true s
    = Done (settled spl s
              (Qt.setMaximum (Reentrant.horizontalMaximum spl s)
                 (Qt.setValue (recentred spl s) (horizontalScrollBar s)))
              (Qt.setMaximum (Reentrant.verticalMaximum s)
                 (verticalScrollBar s)) k).
Proof.
  intros Hspl Hpos.
  change (Reentrant.updateView (S (S (S (S fuel)))) true s)
    with (Reentrant.updateViewBody
            (Reentrant.updateView (S (S (S fuel))) false) true s).
  set (self := Reentrant.updateView (S (S (S fuel))) false).
  unfold Reentrant.updateViewBody. rewrite Hspl.
  cbn [viewRange with_viewRange horizontalScrollBar].
  fold (recentred spl s).
  set (hb := Qt.setValue (recentred spl s) (horizontalScrollBar s)).
  set (s1 := with_viewRange s _).
  unfold Reentrant.delivered.
  destruct (Z.eqb_spec (Qt.value (horizontalScrollBar s)) (Qt.value hb))
    as [Hsame | Hmoved].
  - (* the scroll position stays *)
    cbn [andThen].
    assert (Hshown : shown spl (with_horizontalScrollBar s1 hb)).
    { unfold shown.
      cbn [horizontalScrollBar with_horizontalScrollBar].
      now rewrite <- Hsame. }
    destruct (settle_any (S fuel) spl (with_horizontalScrollBar s1 hb)
                Hspl Hpos Hshown) as (k & Hk & Hrun).
    exists k. split; [lia|]. subst self. exact Hrun.
  - (* the scroll position moves: the slot runs *)
    destruct (updateView_false_settles fuel (with_horizontalScrollBar s1 hb)
                spl Hspl Hpos) as (k & Hk & Hrun).
    fold self in Hrun. rewrite Hrun. cbn [andThen].
    exists (S k). split; [lia|].
    rewrite settle_at_rest.
    + f_equal. apply (settled_again spl s).
    + assumption.
    + apply shown_settled.
    + exact (setMaximum_idempotent (Reentrant.horizontalMaximum spl s) hb).
    + exact (setMaximum_idempotent (Reentrant.verticalMaximum s)
               (verticalScrollBar s)).
Qed.

(** Four levels are enough, and more change nothing: [updateView] returns
    the view at rest, after one to four repaints. *)
Lemma updateView_settles fuel reCenter s spl :
  samplesPerLine s = Some spl -> 1 <= spl -> (4 <= fuel)%nat ->
  exists k, (1 <= k <= 4)%nat /\
    Reentrant.updateView fuel reCenter s
    = Done (settled spl s (horizontalBar reCenter spl s) (verticalBar s) k).
Proof.
  intros Hspl Hpos Hfuel.
  do 4 (destruct fuel as [|fuel]; [lia|]).
  destruct reCenter.
  - apply updateView_true_settles; assumption.
  - destruct (updateView_false_settles (S fuel) s spl Hspl Hpos)
      as (k & Hk & Hrun).
    exists k. split; [lia | exact Hrun].
Qed.

(** ** The view range once the view is at rest *)






(** ** Invalidation *)




(** ** What [updateView] keeps, with the scroll bars calling back *)

Lemma repeat_one_inv (k : nat) (l : list Signal) :
  l ++ repeat viewportUpdate k = l ++ repeat viewportUpdate 1 -> k = 1%nat.
Proof.
  intros H. apply app_inv_head in H.
  apply (f_equal (@length Signal)) in H.
  now rewrite !repeat_length in H.
Qed.

(** X9. Scrolling, resizing and zooming never touch the stored absolute
    selection: [updateView] leaves the selection in samples, the source, the
    FFT size and zoom level, the plots, the cursor mode and the number of
    segments as they were. It requests between one and four repaints, one
    for each run of its body, and exactly one when it was called with
    [false] and no scroll bar had to be adjusted. *)
Theorem updateView_keeps_selection fuel reCenter s spl :
  samplesPerLine s = Some spl -> 1 <= spl -> (4 <= fuel)%nat ->
  exists s' k,
    Reentrant.updateView fuel reCenter s = Done s' /\
    selectedSamples s' = selectedSamples s /\
    mainSampleSource s' = mainSampleSource s /\
    fftSize s' = fftSize s /\ zoomLevel s' = zoomLevel s /\
    plots s' = plots s /\ cursorsEnabled s' = cursorsEnabled s /\
    segments (cursors s') = segments (cursors s) /\
    (1 <= k <= 4)%nat /\
    emitted s' = emitted s ++ repeat viewportUpdate k /\
    (reCenter = false -> hrest spl s -> vrest s -> k = 1%nat).
Proof.
  intros Hspl Hpos Hfuel.
  destruct (updateView_settles fuel reCenter s spl Hspl Hpos Hfuel)
    as (k & Hk & Hrun).
  eexists. exists k. split; [exact Hrun|]. cbn.
  repeat match goal with |- _ /\ _ => split end; try reflexivity; try lia.
  intros -> Hh Hv.
  destruct fuel as [|fuel]; [lia|].
  rewrite (updateView_at_rest fuel s spl Hspl Hpos Hh Hv) in Hrun.
  apply (f_equal (fun r => match r with Done x => emitted x | _ => [] end))
    in Hrun.
  cbn in Hrun. symmetry in Hrun. revert Hrun. apply repeat_one_inv.
Qed.

(** The scroll position at 700 is beyond the recomputed maximum, 424: the
    scroll bar calls back once, and two repaints are requested. *)
Lemma updateView_keeps_selection_witness :
  exists s',
    Reentrant.updateView 4 false
      (exampleView 1000 64 1 10 100 (Qt.mkScrollBar 0 1000 700 1 10)
         (mkRange 0 640) (mkRange 128 320) (mkRange 2 5)) = Done s' /\
    selectedSamples s' = mkRange 128 320 /\
    emitted s' = [viewportUpdate; viewportUpdate].
Proof.
  destruct (updateView_keeps_selection 4 false
    (exampleView 1000 64 1 10 100 (Qt.mkScrollBar 0 1000 700 1 10)
       (mkRange 0 640) (mkRange 128 320) (mkRange 2 5)) 64 eq_refl
    ltac:(lia) ltac:(lia))
    as (s' & k & Hrun & Hsel & _).
  exists s'. split; [exact Hrun|]. split; [exact Hsel|].
  vm_compute in Hrun. now injection Hrun as <-.
Defined.

(** ** Scrolling and resizing once the view is at rest *)



(** ** The body run once and the body with its callbacks *)

Lemma updateView_once reCenter s spl :
  samplesPerLine s = Some spl -> 1 <= spl ->
  updateView reCenter s
  = Some (with_viewRange
            (settled spl s (horizontalBar reCenter spl s) (verticalBar s) 1)
            (mkRange (Qt.value (horizontalScrollBar s))
               (wrap64 (Qt.value (horizontalScrollBar s)
                        + wrap64 (width s * spl))))).
Proof.
  intros Hspl Hpos. unfold updateView. rewrite Hspl. cbn [bind].
  cbv zeta. rewrite !sampleToColumn_pos by assumption. cbn [bind].
  destruct reCenter; reflexivity.
Qed.

(** X20. Delivering the scroll bars' callbacks changes the view range and
    the number of repaints, and nothing else: [updateView] with the
    callbacks delivered leaves both scroll bars, the cursors, the selection
    and all the rest as its body run once does, requests one to four
    repaints where the body requests one, and leaves the view range at
    the final scroll position, which is the view range of the body
    whenever the scroll position did not move. *)
Theorem updateView_agrees fuel reCenter s spl :
  samplesPerLine s = Some spl -> 1 <= spl -> (4 <= fuel)%nat ->
  exists s0 s' k,
    updateView reCenter s = Some s0 /\
    Reentrant.updateView fuel reCenter s = Done s' /\
    horizontalScrollBar s' = horizontalScrollBar s0 /\
    verticalScrollBar s' = verticalScrollBar s0 /\
    cursors s' = cursors s0 /\
    selectedSamples s' = selectedSamples s0 /\
    mainSampleSource s' = mainSampleSource s0 /\
    fftSize s' = fftSize s0 /\ zoomLevel s' = zoomLevel s0 /\
    cursorsEnabled s' = cursorsEnabled s0 /\
    plots s' = plots s0 /\ spectrogramPlot s' = spectrogramPlot s0 /\
    width s' = width s0 /\ viewport s' = viewport s0 /\
    emitted s0 = emitted s ++ [viewportUpdate] /\
    (1 <= k <= 4)%nat /\
    emitted s' = emitted s ++ repeat viewportUpdate k /\
    viewRange s' =
      mkRange (Qt.value (horizontalScrollBar s0))
        (wrap64 (Qt.value (horizontalScrollBar s0) + wrap64 (width s * spl))) /\
    (Qt.value (horizontalScrollBar s0) = Qt.value (horizontalScrollBar s) ->
     viewRange s' = viewRange s0).
Proof.
  intros Hspl Hpos Hfuel.
  destruct (updateView_settles fuel reCenter s spl Hspl Hpos Hfuel)
    as (k & Hk & Hrun).
  do 2 eexists. exists k.
  split; [exact (updateView_once reCenter s spl Hspl Hpos)|].
  split; [exact Hrun|].
  cbn. repeat match goal with |- _ /\ _ => split end;
    try reflexivity; try lia.
  now intros ->.
Qed.

Lemma updateView_agrees_witness :
  exists s0 s',
    updateView false
      (exampleView 1000 64 1 10 100 (Qt.mkScrollBar 0 1000 700 1 10)
         (mkRange 0 640) (mkRange 128 320) (mkRange 2 5)) = Some s0 /\
    Reentrant.updateView 4 false
      (exampleView 1000 64 1 10 100 (Qt.mkScrollBar 0 1000 700 1 10)
         (mkRange 0 640) (mkRange 128 320) (mkRange 2 5)) = Done s' /\
    horizontalScrollBar s' = horizontalScrollBar s0 /\
    cursors s' = cursors s0 /\
    viewRange s0 = mkRange 700 1340 /\
    viewRange s' = mkRange 424 1064.
Proof.
  destruct (updateView_agrees 4 false
    (exampleView 1000 64 1 10 100 (Qt.mkScrollBar 0 1000 700 1 10)
       (mkRange 0 640) (mkRange 128 320) (mkRange 2 5)) 64 eq_refl
    ltac:(lia) ltac:(lia))
    as (s0 & s' & k & H0 & H1 & Hh & _ & Hc & _).
  exists s0, s'. split; [exact H0|]. split; [exact H1|].
  split; [exact Hh|]. split; [exact Hc|].
  vm_compute in H0. injection H0 as <-.
  vm_compute in H1. injection H1 as <-.
  split; reflexivity.
Defined.

(** ** Setting the FFT size and the zoom level, with the callbacks *)

(** X21. With the scroll bars calling back, [setFFTAndZoom] with a zoom
    level of at least one and an FFT size of at least the zoom level
    returns as its body run once does: the FFT size and the zoom level are
    stored, both scroll bars and the cursors are those of the body run
    once, and the view range starts at the final scroll position. A zoom
    level of zero makes it divide by zero. *)
Theorem setFFTAndZoom_settles fuel size zoom s :
  (1 <= zoom <= size -> (4 <= fuel)%nat ->
   exists s0 s',
     setFFTAndZoom size zoom s = Some s0 /\
     Reentrant.setFFTAndZoom fuel size zoom s = Done s' /\
     fftSize s' = size /\ zoomLevel s' = zoom /\
     samplesPerLine s' = Some (size ÷ zoom) /\
     horizontalScrollBar s' = horizontalScrollBar s0 /\
     verticalScrollBar s' = verticalScrollBar s0 /\
     cursors s' = cursors s0 /\
     selectedSamples s' = selectedSamples s /\
     viewRange s' =
       mkRange (Qt.value (horizontalScrollBar s'))
         (wrap64 (Qt.value (horizontalScrollBar s')
                  + wrap64 (width s * (size ÷ zoom))))) /\
  Reentrant.setFFTAndZoom fuel size 0 s = Undefined.
Proof.
  split; [|reflexivity].
  intros Hz Hfuel.
  pose proof (quot_ge_1 size zoom Hz) as Hq.
  unfold setFFTAndZoom, Reentrant.setFFTAndZoom. cbn [zoomLevel with_zoom].
  unfold int_div. rewrite !cdiv_pos by lia. cbn [bind].
  match goal with |- context [updateView true ?x] => set (s2 := x) end.
  assert (Hspl : samplesPerLine s2 = Some (size ÷ zoom)).
  { unfold samplesPerLine, int_div. cbn. apply cdiv_pos. lia. }
  destruct (updateView_settles fuel true s2 _ Hspl Hq Hfuel)
    as (k & _ & Hrun).
  do 2 eexists.
  split; [exact (updateView_once true s2 _ Hspl Hq)|].
  split; [exact Hrun|].
  cbn. repeat match goal with |- _ /\ _ => split end; try reflexivity.
  exact Hspl.
Qed.

Lemma setFFTAndZoom_settles_witness :
  exists s0 s',
    setFFTAndZoom 128 1
      (exampleView 100000 64 1 10 100 (Qt.mkScrollBar 0 99424 5000 1 10)
         (mkRange 5000 5640) (mkRange 0 0) (mkRange 0 0)) = Some s0 /\
    Reentrant.setFFTAndZoom 4 128 1
      (exampleView 100000 64 1 10 100 (Qt.mkScrollBar 0 99424 5000 1 10)
         (mkRange 5000 5640) (mkRange 0 0) (mkRange 0 0)) = Done s' /\
    Qt.value (horizontalScrollBar s') = 4680 /\
    viewRange s0 = mkRange 5000 6280 /\
    viewRange s' = mkRange 4680 5960.
Proof.
  destruct (proj1 (setFFTAndZoom_settles 4 128 1
    (exampleView 100000 64 1 10 100 (Qt.mkScrollBar 0 99424 5000 1 10)
       (mkRange 5000 5640) (mkRange 0 0) (mkRange 0 0)))
    ltac:(lia) ltac:(lia))
    as (s0 & s' & H0 & H1 & _).
  exists s0, s'. split; [exact H0|]. split; [exact H1|].
  vm_compute in H0. injection H0 as <-.
  vm_compute in H1. injection H1 as <-.
  repeat split.
Defined.
